(** * face_git: the capture / train / predict pipeline of [app.py]

    A shallow embedding of the Flask application [app.py]: the module-level
    globals, the frame loop [VideoCaptureThread.run], and the request handlers
    [start_capture], [train_model], [start_prediction], [stop_prediction],
    [download_data] and [download_model].

    The frame loop and the handlers run on different threads and share the
    globals.  They are embedded as small-step programs over one shared state;
    a schedule chooses which thread takes its next step.  One step is one
    simple statement of the source, or the evaluation of one [if]/[while]
    condition.  [run] is a generator: a frame loop runs in the thread that
    serves a GET [/video_feed], beside the threads that serve the other
    routes, and every GET [/video_feed] starts a loop of its own.

    The embedding comes in two layers over the same step functions
    [run_step] and [start_capture_step].  [server] is the whole process: any
    number of frame loops and of [start_capture] requests served side by
    side.  [app] is the process that has one frame loop and serves one
    [start_capture] request at a time; [view] shows that a run of [server]
    in which one loop runs and one request is served is a run of [app].

    mediapipe, OpenCV, pandas, scikit-learn and joblib are not code of the
    repository: they are taken as the interface [External]. *)

From Stdlib Require Import Ascii String DecimalString.
From Stdlib Require Import ZArith List Bool Arith Lia.
Import ListNotations.

Local Open Scope string_scope.
Local Open Scope list_scope.
Local Open Scope Z_scope.

Set Implicit Arguments.

(** ** The external collaborators *)

(** What the code takes from its libraries.  A function that may raise returns
    [option]; [None] is the exception. *)
Class External : Type := {
  (** a Python float: one coordinate of a mesh point *)
  coord : Type;
  (** a fitted [DecisionTreeClassifier] *)
  model : Type;
  (** the content of [facial_expressions.csv] *)
  csv : Type;
  (** the content of [modele_decision_tree.h5] *)
  blob : Type;
  (** a pandas table of features, and a column of labels *)
  features : Type;
  labels : Type;
  (** the accuracy returned by [accuracy_score] *)
  score : Type;
  (** [pd.DataFrame(data, columns=columns).to_csv(...)] on rows [label :: values] *)
  to_csv : list string -> list (string * list coord) -> option csv;
  (** [pd.read_csv] followed by [df.drop('label', axis=1)] and [df['label']] *)
  read_csv : csv -> option (features * labels);
  (** [train_test_split(X, Y, test_size=0.2, random_state=42)] *)
  train_test_split : features -> labels -> option (features * features * labels * labels);
  (** [DecisionTreeClassifier().fit(X_train, y_train)] *)
  fit : features -> labels -> option model;
  (** [accuracy_score(y_test, model.predict(X_test))] *)
  test_accuracy : model -> features -> labels -> score;
  (** [trained_model.predict(input_data)[0]] on one row of 1404 values; a
      tree fitted on other columns raises *)
  predict : model -> list coord -> option string;
  (** [joblib.dump(model, ...)]: the content of the file written *)
  joblib_dump : model -> blob;
  (** [joblib.load]; it raises on a file that is not a dump *)
  joblib_load : blob -> option model;
  (** the rows of the table [train_model] has read: the label of each row,
      as [str] prints it, and its values *)
  rows_of : features -> labels -> list (string * list coord);
  (** [joblib.load] reads what [joblib.dump] has written *)
  joblib_reads_dump : forall m, joblib_load (joblib_dump m) <> None
}.

(** ** Landmarks *)

Section Landmarks.
Context {E : External}.

(** One mesh point, [landmark.x], [landmark.y], [landmark.z]. *)
Record landmark : Type := mkLandmark { lx : coord; ly : coord; lz : coord }.

(** [face_landmarks.landmark]: the mesh points of one face. *)
Definition face : Type := list landmark.

(** [results.multi_face_landmarks]: the detected faces; [[]] stands for the
    falsy [None] of a frame without a face. *)
Definition detection : Type := list face.

(** What the detector of line 49 can give.  [FaceMesh] is built without
    [max_num_faces] and without [refine_landmarks]: with these defaults it
    gives at most one face, and a face has 468 mesh points. *)
Definition receivable (d : detection) : Prop :=
  (length d <= 1)%nat /\ Forall (fun f => length f = 468%nat) d.

(** A frame in which the detector has found the face. *)
Definition detected (o : option detection) : Prop :=
  exists f, o = Some [f] /\ length f = 468%nat.

(** Lines 60-64: [landmarks = []], then for every face and every landmark of
    it [landmarks.extend([landmark.x, landmark.y, landmark.z])]. *)
Definition face_values (f : face) : list coord :=
  flat_map (fun p => [lx p; ly p; lz p]) f.

Definition extract_landmarks (d : detection) : list coord :=
  flat_map face_values d.

(** The number of mesh points of all the faces of a detection. *)
Definition mesh_points (d : detection) : nat :=
  list_sum (map (@length landmark) d).

(** Lines 80 and 174: [f'{i}_{axis}' for i in range(468) for axis in ['x', 'y', 'z']]. *)
Definition str_of_nat (i : nat) : string :=
  NilEmpty.string_of_uint (Nat.to_uint i).

Definition feature_columns : list string :=
  flat_map (fun i => map (fun axis => str_of_nat i ++ "_" ++ axis)%string ["x"; "y"; "z"])
           (seq 0 468).

Definition columns : list string := "label" :: feature_columns.

End Landmarks.

Opaque feature_columns.
Arguments columns : simpl never.

(** ** The shared state *)

Section State.
Context {E : External}.

(** One element of [data]: the Python list [[current_class] + landmarks], as
    its head and its tail. *)
Definition row : Type := (string * list coord)%type.

(** Lines 24-31, the module-level globals.  [trained_model = None] is [None];
    Python integers are unbounded. *)
Record globals : Type := mkGlobals {
  data : list row;
  trained_model : option model;
  is_predicting : bool;
  is_capturing : bool;
  current_class : string;
  num_samples : Z;
  samples_captured : Z;
  capturing_complete : bool
}.

Definition initial_globals : globals :=
  {| data := []; trained_model := None; is_predicting := false;
     is_capturing := false; current_class := ""; num_samples := 0;
     samples_captured := 0; capturing_complete := false |}.

Definition set_data (v : list row) (g : globals) : globals :=
  {| data := v; trained_model := trained_model g; is_predicting := is_predicting g;
     is_capturing := is_capturing g; current_class := current_class g;
     num_samples := num_samples g; samples_captured := samples_captured g;
     capturing_complete := capturing_complete g |}.

Definition set_trained_model (v : option model) (g : globals) : globals :=
  {| data := data g; trained_model := v; is_predicting := is_predicting g;
     is_capturing := is_capturing g; current_class := current_class g;
     num_samples := num_samples g; samples_captured := samples_captured g;
     capturing_complete := capturing_complete g |}.

Definition set_is_predicting (v : bool) (g : globals) : globals :=
  {| data := data g; trained_model := trained_model g; is_predicting := v;
     is_capturing := is_capturing g; current_class := current_class g;
     num_samples := num_samples g; samples_captured := samples_captured g;
     capturing_complete := capturing_complete g |}.

Definition set_is_capturing (v : bool) (g : globals) : globals :=
  {| data := data g; trained_model := trained_model g; is_predicting := is_predicting g;
     is_capturing := v; current_class := current_class g;
     num_samples := num_samples g; samples_captured := samples_captured g;
     capturing_complete := capturing_complete g |}.

Definition set_current_class (v : string) (g : globals) : globals :=
  {| data := data g; trained_model := trained_model g; is_predicting := is_predicting g;
     is_capturing := is_capturing g; current_class := v;
     num_samples := num_samples g; samples_captured := samples_captured g;
     capturing_complete := capturing_complete g |}.

Definition set_num_samples (v : Z) (g : globals) : globals :=
  {| data := data g; trained_model := trained_model g; is_predicting := is_predicting g;
     is_capturing := is_capturing g; current_class := current_class g;
     num_samples := v; samples_captured := samples_captured g;
     capturing_complete := capturing_complete g |}.

Definition set_samples_captured (v : Z) (g : globals) : globals :=
  {| data := data g; trained_model := trained_model g; is_predicting := is_predicting g;
     is_capturing := is_capturing g; current_class := current_class g;
     num_samples := num_samples g; samples_captured := v;
     capturing_complete := capturing_complete g |}.

Definition set_capturing_complete (v : bool) (g : globals) : globals :=
  {| data := data g; trained_model := trained_model g; is_predicting := is_predicting g;
     is_capturing := is_capturing g; current_class := current_class g;
     num_samples := num_samples g; samples_captured := samples_captured g;
     capturing_complete := v |}.

(** The two files of the working directory: ['facial_expressions.csv'] and
    ['modele_decision_tree.h5'].  [None]: [os.path.exists] is false. *)
Record files : Type := mkFiles {
  csv_file : option csv;
  model_file : option blob
}.

(** ** Replies *)

(** The argument of [jsonify]. *)
Record response : Type := mkResponse {
  message : string;
  success : bool;
  accuracy : option score
}.

(** What a request handler hands back to Flask: a JSON body, a file
    ([send_file]), or an exception it did not catch. *)
Inductive reply : Type :=
| Json (r : response)
| SentCsv (c : csv)
| SentModel (b : blob)
| Unhandled.

(** ** The frame loop, [VideoCaptureThread.run] *)

(** What lines 65-69, 74 and 83 draw on the frame before it is encoded. *)
Record overlay : Type := mkOverlay {
  mesh_drawn : nat;
  capture_text : option (string * Z * Z);
  prediction_text : option string
}.

Definition plain_frame : overlay :=
  {| mesh_drawn := 0; capture_text := None; prediction_text := None |}.

(** Where the loop stands, with its locals [landmarks] and the drawing made
    so far. *)
Inductive pipe_pc : Type :=
| PRead
| PCheck (landmarks : list coord) (ov : overlay)
| PAppend (landmarks : list coord) (ov : overlay)
| PIncr (landmarks : list coord) (ov : overlay)
| PText (landmarks : list coord) (ov : overlay)
| PComplete (landmarks : list coord) (ov : overlay)
| PPredict (landmarks : list coord) (ov : overlay)
| PEmit (ov : overlay)
| PStopped
| PCrashed.

(** One step of the loop.  [cam] is what [cap.read()] and
    [face_mesh.process] give at line 51-57 for the next frame: [None] when
    [ret] is false, else the detection.  The third component is the frame
    yielded at line 88, if this step yields one.  The loop of line 60 is
    embedded for any list of faces; the detector gives [receivable] ones,
    and on a face of fewer points [draw_landmarks] would raise.

    - [PRead], lines 50-69: [self.stopped] is [False] (no line of the source
      sets it); a failed read leaves the loop (line 53, then line 91); a frame
      with a detection has its landmarks extracted and its meshes drawn.
    - [PCheck], line 71; [PAppend], line 72; [PIncr], line 73; [PText],
      line 74; [PComplete], lines 76-77.
    - [PPredict], lines 79-84: [pd.DataFrame([landmarks], columns=columns)]
      raises [ValueError] unless [landmarks] has as many values as there are
      columns, and [predict] may raise; neither exception is caught, and
      either ends the generator.
    - [PEmit], lines 86-89. *)
Definition run_step (cam : option detection) (g : globals) (pc : pipe_pc)
  : globals * pipe_pc * option overlay :=
  match pc with
  | PRead =>
      match cam with
      | None => (g, PStopped, None)
      | Some [] => (g, PEmit plain_frame, None)
      | Some d =>
          (g, PCheck (extract_landmarks d)
                     {| mesh_drawn := length d; capture_text := None;
                        prediction_text := None |}, None)
      end
  | PCheck lm ov =>
      if is_capturing g && (samples_captured g <? num_samples g)
      then (g, PAppend lm ov, None)
      else (g, PPredict lm ov, None)
  | PAppend lm ov =>
      (set_data (data g ++ [(current_class g, lm)]) g, PIncr lm ov, None)
  | PIncr lm ov =>
      (set_samples_captured (samples_captured g + 1) g, PText lm ov, None)
  | PText lm ov =>
      (g, PComplete lm
            {| mesh_drawn := mesh_drawn ov;
               capture_text := Some (current_class g, samples_captured g, num_samples g);
               prediction_text := prediction_text ov |}, None)
  | PComplete lm ov =>
      if samples_captured g >=? num_samples g
      then (set_capturing_complete true g, PPredict lm ov, None)
      else (g, PPredict lm ov, None)
  | PPredict lm ov =>
      match is_predicting g, trained_model g with
      | true, Some m =>
          if (length lm =? length feature_columns)%nat
          then match predict m lm with
               | Some p =>
                   (g, PEmit {| mesh_drawn := mesh_drawn ov;
                                capture_text := capture_text ov;
                                prediction_text := Some p |}, None)
               | None => (g, PCrashed, None)
               end
          else (g, PCrashed, None)
      | _, _ => (g, PEmit ov, None)
      end
  | PEmit ov => (g, PRead, Some ov)
  | PStopped => (g, PStopped, None)
  | PCrashed => (g, PCrashed, None)
  end.

(** ** [start_capture] *)

(** The JSON body of the request, after [int(capture_info['num_samples'])].
    A body without one of the two keys, or whose count [int] does not take,
    raises at line 110 or 111 and is no [capture_request]. *)
Record capture_request : Type := mkRequest {
  req_num_samples : Z;
  req_class_names : list string
}.

(** Where the handler stands; [rest] are the class names the [for] loop has
    not reached yet. *)
Inductive capture_pc : Type :=
| CInit (req : capture_request)
| CFor (rest : list string)
| CReset (rest : list string)
| CEnable (rest : list string)
| CPoll (rest : list string)
| CDisable (rest : list string)
| CReturn.

Definition capture_completed : response :=
  {| message := "Capture completed."; success := true; accuracy := None |}.

(** One step of the handler; [None] as next position: the handler has
    returned, with the reply.

    - [CInit], lines 109-111; [CFor], lines 113-114: the next class name
      becomes [current_class], or the loop is over; [CReset], line 115;
      [CEnable], line 116.
    - [CPoll], lines 117-118: while [samples_captured < num_samples] the
      handler sleeps and looks again.
    - [CDisable], line 119; [CReturn], line 121. *)
Definition start_capture_step (g : globals) (pc : capture_pc)
  : globals * option capture_pc * option reply :=
  match pc with
  | CInit req => (set_num_samples (req_num_samples req) g, Some (CFor (req_class_names req)), None)
  | CFor [] => (g, Some CReturn, None)
  | CFor (class_name :: rest) => (set_current_class class_name g, Some (CReset rest), None)
  | CReset rest => (set_samples_captured 0 g, Some (CEnable rest), None)
  | CEnable rest => (set_is_capturing true g, Some (CPoll rest), None)
  | CPoll rest =>
      if samples_captured g <? num_samples g
      then (g, Some (CPoll rest), None)
      else (g, Some (CDisable rest), None)
  | CDisable rest => (set_is_capturing false g, Some (CFor rest), None)
  | CReturn => (g, None, Some (Json capture_completed))
  end.

(** ** The other handlers *)

Definition capture_first : response :=
  {| message := "Please capture the data first."; success := false; accuracy := None |}.

Definition model_trained (a : score) : response :=
  {| message := "Model trained successfully."; success := true; accuracy := Some a |}.

(** Lines 124-153.  An exception of [read_csv], [train_test_split] or [fit]
    leaves the handler before line 144. *)
Definition train_model (g : globals) (fs : files) : globals * files * reply :=
  match csv_file fs with
  | None => (g, fs, Json capture_first)
  | Some c =>
      match read_csv c with
      | None => (g, fs, Unhandled)
      | Some (X, Y) =>
          match train_test_split X Y with
          | None => (g, fs, Unhandled)
          | Some (X_train, X_test, y_train, y_test) =>
              match fit X_train y_train with
              | None => (g, fs, Unhandled)
              | Some m =>
                  (set_trained_model (Some m) g,
                   {| csv_file := csv_file fs; model_file := Some (joblib_dump m) |},
                   Json (model_trained (test_accuracy m X_test y_test)))
              end
          end
      end
  end.

Definition train_first : response :=
  {| message := "Train the model please."; success := false; accuracy := None |}.

Definition prediction_started : response :=
  {| message := "Prediction started."; success := true; accuracy := None |}.

Definition prediction_stopped : response :=
  {| message := "Prediction stopped."; success := true; accuracy := None |}.

(** Lines 156-164.  An exception of [joblib.load] leaves the handler at
    line 162, before any global is assigned. *)
Definition start_prediction (g : globals) (fs : files) : globals * reply :=
  match model_file fs with
  | None => (g, Json train_first)
  | Some b =>
      match joblib_load b with
      | None => (g, Unhandled)
      | Some m =>
          (set_is_predicting true (set_trained_model (Some m) g),
           Json prediction_started)
      end
  end.

(** Lines 167-170. *)
Definition stop_prediction (g : globals) : globals * reply :=
  (set_is_predicting false g, Json prediction_stopped).

(** Lines 173-179: the table is built from [data] and written; [data] is
    only read. *)
Definition download_data (g : globals) (fs : files) : files * reply :=
  match to_csv columns (data g) with
  | None => (fs, Unhandled)
  | Some c => ({| csv_file := Some c; model_file := model_file fs |}, SentCsv c)
  end.

(** Lines 182-183: [send_file] raises when the file is missing. *)
Definition download_model (fs : files) : reply :=
  match model_file fs with
  | None => Unhandled
  | Some b => SentModel b
  end.

(** ** The application: one frame loop and the handlers over the shared state *)

(** The process with one consumer of [/video_feed], which serves the
    [start_capture] requests one after the other.  The process with any
    number of loops and of requests is [server], below. *)

Record app : Type := mkApp {
  shared : globals;
  disk : files;
  (** the frame loop: its position and the number of frames read so far *)
  ppc : pipe_pc;
  frame_no : nat;
  (** the frames yielded so far, oldest first *)
  emitted : list overlay;
  (** the [start_capture] request being served, if any *)
  capture : option capture_pc;
  (** the replies given so far, oldest first *)
  replies : list reply
}.

(** What can happen next: the frame loop or the running [start_capture]
    takes a step, or a request arrives.  The short handlers run in one step.
    A [start_capture] request that arrives while another is served has no
    place in [app]: [step] leaves the state as it is, and [server] serves
    both. *)
Inductive event : Type :=
| EvPipeline
| EvCapture
| EvStartCapture (req : capture_request)
| EvTrainModel
| EvStartPrediction
| EvStopPrediction
| EvDownloadData
| EvDownloadModel.

Definition log (o : option reply) (l : list reply) : list reply :=
  match o with Some r => l ++ [r] | None => l end.

Definition emit (o : option overlay) (l : list overlay) : list overlay :=
  match o with Some ov => l ++ [ov] | None => l end.

(** [camera i] is what the camera and the detector give for frame [i]. *)
Definition step (camera : nat -> option detection) (e : event) (s : app) : app :=
  match e with
  | EvPipeline =>
      let '(g', pc', out) := run_step (camera (frame_no s)) (shared s) (ppc s) in
      {| shared := g'; disk := disk s; ppc := pc';
         frame_no := match ppc s with PRead => S (frame_no s) | _ => frame_no s end;
         emitted := emit out (emitted s);
         capture := capture s; replies := replies s |}
  | EvCapture =>
      match capture s with
      | None => s
      | Some pc =>
          let '(g', pc', out) := start_capture_step (shared s) pc in
          {| shared := g'; disk := disk s; ppc := ppc s; frame_no := frame_no s;
             emitted := emitted s; capture := pc'; replies := log out (replies s) |}
      end
  | EvStartCapture req =>
      match capture s with
      | None =>
          {| shared := shared s; disk := disk s; ppc := ppc s; frame_no := frame_no s;
             emitted := emitted s; capture := Some (CInit req); replies := replies s |}
      | Some _ => s
      end
  | EvTrainModel =>
      let '(g', fs', r) := train_model (shared s) (disk s) in
      {| shared := g'; disk := fs'; ppc := ppc s; frame_no := frame_no s;
         emitted := emitted s; capture := capture s; replies := replies s ++ [r] |}
  | EvStartPrediction =>
      let '(g', r) := start_prediction (shared s) (disk s) in
      {| shared := g'; disk := disk s; ppc := ppc s; frame_no := frame_no s;
         emitted := emitted s; capture := capture s; replies := replies s ++ [r] |}
  | EvStopPrediction =>
      let '(g', r) := stop_prediction (shared s) in
      {| shared := g'; disk := disk s; ppc := ppc s; frame_no := frame_no s;
         emitted := emitted s; capture := capture s; replies := replies s ++ [r] |}
  | EvDownloadData =>
      let '(fs', r) := download_data (shared s) (disk s) in
      {| shared := shared s; disk := fs'; ppc := ppc s; frame_no := frame_no s;
         emitted := emitted s; capture := capture s; replies := replies s ++ [r] |}
  | EvDownloadModel =>
      {| shared := shared s; disk := disk s; ppc := ppc s; frame_no := frame_no s;
         emitted := emitted s; capture := capture s;
         replies := replies s ++ [download_model (disk s)] |}
  end.

Definition schedule : Type := list event.

Fixpoint exec (camera : nat -> option detection) (sched : schedule) (s : app) : app :=
  match sched with
  | [] => s
  | e :: sched' => exec camera sched' (step camera e s)
  end.

(** The process as it starts: the globals of lines 24-31, the frame loop at
    its head, no request; the two files are whatever the directory holds. *)
Definition initial_app (fs0 : files) : app :=
  {| shared := initial_globals; disk := fs0; ppc := PRead; frame_no := 0;
     emitted := []; capture := None; replies := [] |}.

End State.

(** ** What a capture request still owes *)

Section Bookkeeping.
Context {E : External}.

(** The frame loop stands between its test at line 71 and the end of line 73. *)
Definition in_block (pc : pipe_pc) : bool :=
  match pc with
  | PAppend _ _ | PIncr _ _ => true
  | _ => false
  end.

(** The loop has appended a row (line 72) that line 73 has not counted yet. *)
Definition uncounted (pc : pipe_pc) : nat :=
  match pc with
  | PIncr _ _ => 1
  | _ => 0
  end.

(** [n] samples of each class, class after class. *)
Definition blocks (n : Z) (classes : list string) : list string :=
  flat_map (fun c => repeat c (Z.to_nat n)) classes.

(** The labels the request being served has yet to append, in order. *)
Definition remaining (s : app) : list string :=
  let n := num_samples (shared s) in
  let c := current_class (shared s) in
  match capture s with
  | None | Some CReturn => []
  | Some (CInit req) => blocks (req_num_samples req) (req_class_names req)
  | Some (CFor rest) | Some (CDisable rest) => blocks n rest
  | Some (CReset rest) | Some (CEnable rest) => blocks n (c :: rest)
  | Some (CPoll rest) =>
      repeat c (Z.to_nat n - (Z.to_nat (samples_captured (shared s)) + uncounted (ppc s)))
        ++ blocks n rest
  end.

(** How the flags, the counter and the two program positions go together. *)
Definition coherent (s : app) : Prop :=
  0 <= samples_captured (shared s) /\
  match capture s with
  | Some (CPoll _) =>
      is_capturing (shared s) = true /\
      (in_block (ppc s) = true -> samples_captured (shared s) < num_samples (shared s)) /\
      (in_block (ppc s) = false ->
       samples_captured (shared s) <= Z.max 0 (num_samples (shared s)))
  | Some (CDisable _) =>
      in_block (ppc s) = false /\ num_samples (shared s) <= samples_captured (shared s)
  | Some (CEnable _) =>
      is_capturing (shared s) = false /\ in_block (ppc s) = false /\
      samples_captured (shared s) = 0
  | _ => is_capturing (shared s) = false /\ in_block (ppc s) = false
  end.

(** The schedule brings no further [start_capture] request. *)
Definition is_request (e : event) : bool :=
  match e with EvStartCapture _ => true | _ => false end.

Definition no_request (sched : schedule) : Prop :=
  Forall (fun e => is_request e = false) sched.

(** The number of steps the handler takes before it returns, not counting
    the polls of line 117 that find the count short. *)
Definition hsteps (pc : option capture_pc) : nat :=
  match pc with
  | None => 0
  | Some CReturn => 1
  | Some (CInit req) => 3 + 5 * length (req_class_names req)
  | Some (CFor rest) => 2 + 5 * length rest
  | Some (CReset rest) => 6 + 5 * length rest
  | Some (CEnable rest) => 5 + 5 * length rest
  | Some (CPoll rest) => 4 + 5 * length rest
  | Some (CDisable rest) => 3 + 5 * length rest
  end.

(** The handler is at line 117 and finds the count short: it sleeps. *)
Definition waiting (s : app) : bool :=
  match capture s with
  | Some (CPoll _) => samples_captured (shared s) <? num_samples (shared s)
  | _ => false
  end.

(** The thread whose next step brings the request forward. *)
Definition mover (s : app) : event :=
  if waiting s then EvPipeline else EvCapture.

(** The steps of the frame loop up to the end of the next line 73, when its
    test at line 71 holds. *)
Definition dist (pc : pipe_pc) : nat :=
  match pc with
  | PIncr _ _ => 1
  | PAppend _ _ => 2
  | PCheck _ _ => 3
  | PRead => 4
  | PEmit _ => 5
  | PPredict _ _ => 6
  | PComplete _ _ => 7
  | PText _ _ => 8
  | PStopped | PCrashed => 0
  end.

(** The steps of the frame loop that the samples still missing for the
    current class take. *)
Definition pwork (s : app) : nat :=
  if samples_captured (shared s) <? num_samples (shared s)
  then 8 * (Z.to_nat (num_samples (shared s) - samples_captured (shared s)) - 1) + dist (ppc s)
  else 0.

(** A bound on the moving steps (of [mover]) left before the request returns. *)
Definition cost (s : app) : nat :=
  let N := Z.to_nat (num_samples (shared s)) in
  (hsteps (capture s) +
   match capture s with
   | Some (CInit req) => length (req_class_names req) * (8 * Z.to_nat (req_num_samples req))
   | Some (CFor rest) | Some (CDisable rest) => length rest * (8 * N)
   | Some (CReset rest) | Some (CEnable rest) => 8 * N + length rest * (8 * N)
   | Some (CPoll rest) => pwork s + length rest * (8 * N)
   | Some CReturn | None => 0
   end)%nat.

(** A frame with a detection whose landmarks fill the 1404 feature columns. *)
Definition good_frame (o : option detection) : Prop :=
  exists d, o = Some d /\ d <> [] /\ length (extract_landmarks d) = length feature_columns.

(** The frame loop is running and the landmarks it holds fill the columns. *)
Definition pipe_ok (pc : pipe_pc) : Prop :=
  match pc with
  | PCheck lm _ | PAppend lm _ | PIncr lm _ | PText lm _ | PComplete lm _ | PPredict lm _ =>
      length lm = length feature_columns
  | PRead | PEmit _ => True
  | PStopped | PCrashed => False
  end.

(** A stretch of a schedule in which both threads get to run. *)
Definition fair_round (r : schedule) : Prop :=
  In EvPipeline r /\ In EvCapture r /\ no_request r.


(** The replies of [start_capture] among the replies given. *)
Definition is_completed (r : reply) : bool :=
  match r with
  | Json j => success j && String.eqb (message j) "Capture completed."
  | _ => false
  end.

Definition completions (s : app) : nat :=
  length (filter is_completed (replies s)).

(** The requests being served: none or one. *)
Definition pending (s : app) : nat :=
  match capture s with None => 0 | Some _ => 1 end.

(** The request being served is [req]. *)
Definition serving (req : capture_request) (s : app) : Prop :=
  match capture s with
  | Some (CInit r) => r = req
  | _ => num_samples (shared s) = req_num_samples req
  end.



(** The states the process can be in. *)
Inductive reachable (camera : nat -> option detection) : app -> Prop :=
| reach_initial (fs0 : files) : reachable camera (initial_app fs0)
| reach_step (e : event) (s : app) :
    reachable camera s -> reachable camera (step camera e s).



(** The frame loop is over: the camera failed or an exception ended it. *)
Definition halted (pc : pipe_pc) : bool :=
  match pc with
  | PStopped | PCrashed => true
  | _ => false
  end.

(** The landmarks the frame loop holds. *)
Definition held (pc : pipe_pc) : option (list coord) :=
  match pc with
  | PCheck lm _ | PAppend lm _ | PIncr lm _ | PText lm _ | PComplete lm _
  | PPredict lm _ => Some lm
  | _ => None
  end.

(** The landmarks of one of the first [k] frames of the camera. *)
Definition from_camera (camera : nat -> option detection) (k : nat)
  (lm : list coord) : Prop :=
  exists i d, (i < k)%nat /\ camera i = Some d /\ d <> [] /\ lm = extract_landmarks d.

(** The frames handed to the frame loop so far that it has not yielded. *)
Definition in_flight (pc : pipe_pc) : nat :=
  match pc with
  | PRead => 0
  | _ => 1
  end.

(** The drawing of line 83, when line 79 holds. *)
Definition prediction_of (gl : globals) (lm : list coord) : option string :=
  match is_predicting gl, trained_model gl with
  | true, Some m => predict m lm
  | _, _ => None
  end.

(** The prediction of line 82 on the landmarks [lm] does not raise: while
    [is_predicting] is on, the active model takes them. *)
Definition accepts (g : globals) (lm : list coord) : Prop :=
  is_predicting g = true ->
  forall m, trained_model g = Some m -> predict m lm <> None.

(** No prediction of line 82 raises in these globals: while [is_predicting]
    is on, the active model takes any row of 1404 values. *)
Definition accepts_rows (g : globals) : Prop :=
  is_predicting g = true ->
  forall m, trained_model g = Some m ->
  forall lm, length lm = length feature_columns -> predict m lm <> None.

(** [P] holds of the globals at every moment of a run. *)
Fixpoint always (P : globals -> Prop) (camera : nat -> option detection)
  (sched : schedule) (s : app) : Prop :=
  P (shared s) /\
  match sched with
  | [] => True
  | e :: sched' => always P camera sched' (step camera e s)
  end.



End Bookkeeping.

(** ** The whole process: any number of frame loops and of requests *)

Section Server.
Context {E : External}.

(** One run of [VideoCaptureThread.run].  [run] is a generator function:
    [video_thread.start()] at line 95 runs no line of its body, and line 103
    makes a new generator for every GET [/video_feed], each with its own
    [cap] and [face_mesh] (lines 45-49).  All of them share the globals. *)
Record loop : Type := mkLoop {
  loop_pc : pipe_pc;
  (** the frames this loop has read *)
  loop_frames : nat;
  (** the frames it has yielded, oldest first *)
  loop_emitted : list overlay
}.

Definition new_loop : loop :=
  {| loop_pc := PRead; loop_frames := 0; loop_emitted := [] |}.

(** The process: the globals, the two files, the frame loops started so far
    and the [start_capture] requests received so far, both oldest first.  A
    request that has returned is [None]; the others are served side by side,
    each in its own thread. *)
Record server : Type := mkServer {
  sv_shared : globals;
  sv_disk : files;
  sv_loops : list loop;
  sv_requests : list (option capture_pc);
  sv_replies : list reply
}.

(** What can happen next: a GET [/video_feed] starts a frame loop, the
    frame loop [i] takes a step, a [start_capture] request arrives, the
    request [j] takes a step, or one of the short handlers runs. *)
Inductive action : Type :=
| AVideoFeed
| ALoop (i : nat)
| AStartCapture (req : capture_request)
| ARequest (j : nat)
| ATrainModel
| AStartPrediction
| AStopPrediction
| ADownloadData
| ADownloadModel.

(** [l] with its element at [i] replaced by [x]. *)
Fixpoint put {A : Type} (i : nat) (x : A) (l : list A) : list A :=
  match l, i with
  | [], _ => []
  | _ :: t, O => x :: t
  | h :: t, S i' => h :: put i' x t
  end.

(** [cameras i n] is what the camera and the detector give the loop [i] for
    its frame [n]. *)
Definition serve (cameras : nat -> nat -> option detection) (a : action)
  (sv : server) : server :=
  match a with
  | AVideoFeed =>
      {| sv_shared := sv_shared sv; sv_disk := sv_disk sv;
         sv_loops := sv_loops sv ++ [new_loop];
         sv_requests := sv_requests sv; sv_replies := sv_replies sv |}
  | ALoop i =>
      match nth_error (sv_loops sv) i with
      | None => sv
      | Some l =>
          let '(g', pc', out) :=
            run_step (cameras i (loop_frames l)) (sv_shared sv) (loop_pc l) in
          {| sv_shared := g'; sv_disk := sv_disk sv;
             sv_loops :=
               put i {| loop_pc := pc';
                        loop_frames := match loop_pc l with
                                       | PRead => S (loop_frames l)
                                       | _ => loop_frames l
                                       end;
                        loop_emitted := emit out (loop_emitted l) |}
                   (sv_loops sv);
             sv_requests := sv_requests sv; sv_replies := sv_replies sv |}
      end
  | AStartCapture req =>
      {| sv_shared := sv_shared sv; sv_disk := sv_disk sv;
         sv_loops := sv_loops sv;
         sv_requests := sv_requests sv ++ [Some (CInit req)];
         sv_replies := sv_replies sv |}
  | ARequest j =>
      match nth_error (sv_requests sv) j with
      | Some (Some pc) =>
          let '(g', pc', out) := start_capture_step (sv_shared sv) pc in
          {| sv_shared := g'; sv_disk := sv_disk sv; sv_loops := sv_loops sv;
             sv_requests := put j pc' (sv_requests sv);
             sv_replies := log out (sv_replies sv) |}
      | _ => sv
      end
  | ATrainModel =>
      let '(g', fs', r) := train_model (sv_shared sv) (sv_disk sv) in
      {| sv_shared := g'; sv_disk := fs'; sv_loops := sv_loops sv;
         sv_requests := sv_requests sv; sv_replies := sv_replies sv ++ [r] |}
  | AStartPrediction =>
      let '(g', r) := start_prediction (sv_shared sv) (sv_disk sv) in
      {| sv_shared := g'; sv_disk := sv_disk sv; sv_loops := sv_loops sv;
         sv_requests := sv_requests sv; sv_replies := sv_replies sv ++ [r] |}
  | AStopPrediction =>
      let '(g', r) := stop_prediction (sv_shared sv) in
      {| sv_shared := g'; sv_disk := sv_disk sv; sv_loops := sv_loops sv;
         sv_requests := sv_requests sv; sv_replies := sv_replies sv ++ [r] |}
  | ADownloadData =>
      let '(fs', r) := download_data (sv_shared sv) (sv_disk sv) in
      {| sv_shared := sv_shared sv; sv_disk := fs'; sv_loops := sv_loops sv;
         sv_requests := sv_requests sv; sv_replies := sv_replies sv ++ [r] |}
  | ADownloadModel =>
      {| sv_shared := sv_shared sv; sv_disk := sv_disk sv; sv_loops := sv_loops sv;
         sv_requests := sv_requests sv;
         sv_replies := sv_replies sv ++ [download_model (sv_disk sv)] |}
  end.

Fixpoint play (cameras : nat -> nat -> option detection) (acts : list action)
  (sv : server) : server :=
  match acts with
  | [] => sv
  | a :: acts' => play cameras acts' (serve cameras a sv)
  end.

(** The process as it starts: the globals of lines 24-31, no frame loop and
    no request; the two files are whatever the directory holds. *)
Definition initial_server (fs0 : files) : server :=
  {| sv_shared := initial_globals; sv_disk := fs0; sv_loops := [];
     sv_requests := []; sv_replies := [] |}.

(** The states the process can be in. *)
Inductive attainable (cameras : nat -> nat -> option detection) : server -> Prop :=
| attain_initial (fs0 : files) : attainable cameras (initial_server fs0)
| attain_serve (a : action) (sv : server) :
    attainable cameras sv -> attainable cameras (serve cameras a sv).

(** *** One loop and one request of the process *)

(** The process as the application of one frame loop and one request: its
    loop [i] and its request [k]. *)
Definition view (i k : nat) (sv : server) : app :=
  {| shared := sv_shared sv; disk := sv_disk sv;
     ppc := loop_pc (nth i (sv_loops sv) new_loop);
     frame_no := loop_frames (nth i (sv_loops sv) new_loop);
     emitted := loop_emitted (nth i (sv_loops sv) new_loop);
     capture := nth k (sv_requests sv) None;
     replies := sv_replies sv |}.

(** What an action of the process is for the loop [i] and the request [k]. *)
Definition lower (i k : nat) (a : action) : schedule :=
  match a with
  | ALoop j => if (j =? i)%nat then [EvPipeline] else []
  | ARequest j => if (j =? k)%nat then [EvCapture] else []
  | ATrainModel => [EvTrainModel]
  | AStartPrediction => [EvStartPrediction]
  | AStopPrediction => [EvStopPrediction]
  | ADownloadData => [EvDownloadData]
  | ADownloadModel => [EvDownloadModel]
  | AVideoFeed | AStartCapture _ => []
  end.

Definition lowers (i k : nat) (acts : list action) : schedule :=
  flat_map (lower i k) acts.

(** The action starts neither a frame loop nor a request. *)
Definition calm (a : action) : bool :=
  match a with
  | AVideoFeed | AStartCapture _ => false
  | _ => true
  end.

(** The loop [i] exists, and every other loop has ended. *)
Definition sole_loop (i : nat) (sv : server) : Prop :=
  (i < length (sv_loops sv))%nat /\
  forall j l, j <> i -> nth_error (sv_loops sv) j = Some l ->
              halted (loop_pc l) = true.

(** Every request received has returned. *)
Definition no_request_served (sv : server) : Prop :=
  Forall (fun r => r = None) (sv_requests sv).

(** No request but the request [k] is being served. *)
Definition lone_request (k : nat) (sv : server) : Prop :=
  forall j, j <> k -> nth j (sv_requests sv) None = None.

(** No capture is on: the flag is off, the count is not negative, and the
    loop [i] is not between its test of line 71 and the end of line 73. *)
Definition idle (i : nat) (sv : server) : Prop :=
  is_capturing (sv_shared sv) = false /\
  0 <= samples_captured (sv_shared sv) /\
  in_block (loop_pc (nth i (sv_loops sv) new_loop)) = false.

(** The request [k] has returned. *)
Definition returned (k : nat) (sv : server) : Prop :=
  nth_error (sv_requests sv) k = Some None.

Definition sv_completions (sv : server) : nat :=
  length (filter is_completed (sv_replies sv)).

(** A stretch of actions in which the loop [i] and the request [k] both get
    to run, and nothing starts. *)
Definition fair (i k : nat) (r : list action) : Prop :=
  In (ALoop i) r /\ In (ARequest k) r /\ Forall (fun a => calm a = true) r.

(** [P] holds of the globals at every moment of a run of the process. *)
Fixpoint throughout (P : globals -> Prop) (cameras : nat -> nat -> option detection)
  (acts : list action) (sv : server) : Prop :=
  P (sv_shared sv) /\
  match acts with
  | [] => True
  | a :: acts' => throughout P cameras acts' (serve cameras a sv)
  end.

End Server.

(** ** A concrete instance of the collaborators *)

(** Coordinates are integers, a table is its list of rows, and a file
    holds what was written to it.

    - [toy_to_csv]: a table is built only from rows that fill the columns.
    - [toy_read_csv]: an empty field is read as a missing value, which prints
      as [nan], like the fields [read_csv] takes for missing by default.
    - [toy_split]: the last fifth of the rows, rounded up, is the test set;
      the split raises when no row is left to train on.
    - [toy_fit]: the model is the first label it has seen, with the number
      of columns it was fitted on.
    - [toy_accuracy]: the right answers among the tests, and their number.
    - [toy_predict]: the model answers its label; it raises on a row of
      another width than it was fitted on.
    - the model file holds the dump of a model ([Some]), or something that
      is not a dump ([None]). *)
Definition toy_to_csv (cols : list string) (rows : list (string * list Z))
  : option (list (string * list Z)) :=
  if forallb (fun r => (S (length (snd r)) =? length cols)%nat) rows
  then Some rows else None.

Definition toy_read_label (l : string) : string :=
  if String.eqb l "" then "nan" else l.

Definition toy_read_csv (c : list (string * list Z))
  : option (list (list Z) * list string) :=
  Some (map snd c, map (fun r => toy_read_label (fst r)) c).

Definition toy_split (X : list (list Z)) (Y : list string)
  : option (list (list Z) * list (list Z) * list string * list string) :=
  let n_test := ((length X + 4) / 5)%nat in
  let n_train := (length X - n_test)%nat in
  match n_train with
  | O => None
  | S _ => Some (firstn n_train X, skipn n_train X, firstn n_train Y, skipn n_train Y)
  end.

Definition toy_model : Type := (string * nat)%type.

Definition toy_fit (X : list (list Z)) (Y : list string) : option toy_model :=
  match X, Y with
  | x :: _, y :: _ => Some (y, length x)
  | _, _ => None
  end.

Definition toy_predict (m : toy_model) (lm : list Z) : option string :=
  if (length lm =? snd m)%nat then Some (fst m) else None.

Definition toy_accuracy (m : toy_model) (X : list (list Z)) (Y : list string)
  : nat * nat :=
  (length (filter (String.eqb (fst m)) Y), length Y).

Lemma toy_reads_dump (m : toy_model) : Some m <> None.
Proof. discriminate. Qed.

Definition toy : External :=
  {| coord := Z;
     model := toy_model;
     csv := list (string * list Z);
     blob := option toy_model;
     features := list (list Z);
     labels := list string;
     score := (nat * nat)%type;
     to_csv := toy_to_csv;
     read_csv := toy_read_csv;
     train_test_split := toy_split;
     fit := toy_fit;
     test_accuracy := toy_accuracy;
     predict := toy_predict;
     joblib_dump := fun m => Some m;
     joblib_load := fun b => b;
     rows_of := fun X Y => combine Y X;
     joblib_reads_dump := toy_reads_dump |}.

(** A face of 468 mesh points, all at [(v, v, v)]; a camera that always
    shows it, and one that never shows a face. *)
Definition flat_face (v : Z) : @face toy :=
  repeat (@mkLandmark toy v v v) 468.

Definition steady_camera : nat -> option (@detection toy) :=
  fun _ => Some [flat_face 1].

Definition empty_camera : nat -> option (@detection toy) :=
  fun _ => Some [].

Definition no_files : @files toy :=
  {| csv_file := None; model_file := None |}.

(** The process at its start, in an empty directory. *)
Definition fresh : @app toy := initial_app no_files.

(** Requests: two samples of "happy"; ten of "a" then "b"; a count of -1;
    no class; one sample of the empty class name. *)
Definition happy_request : capture_request :=
  {| req_num_samples := 2; req_class_names := ["happy"] |}.

Definition ab_request : capture_request :=
  {| req_num_samples := 10; req_class_names := ["a"; "b"] |}.

Definition negative_request : capture_request :=
  {| req_num_samples := -1; req_class_names := ["a"] |}.



(** [k] rounds in which the frame loop, then the handler, takes a step. *)
Definition alternate (k : nat) : list schedule :=
  repeat [EvPipeline; EvCapture] k.

(** The process once the request for two samples of "happy" has been
    served before the steady camera, and when that request has just reached
    its poll. *)
Definition after_happy : @app toy :=
  exec steady_camera (concat (alternate 24))
    (step steady_camera (EvStartCapture happy_request) fresh).

Definition polling_happy : @app toy :=
  exec steady_camera (repeat EvCapture 4)
    (step steady_camera (EvStartCapture happy_request) fresh).

(** A dataset file with two rows, left by an earlier run. *)
Definition old_files : @files toy :=
  {| csv_file := Some ([("a", [1]); ("b", [2])] : @csv toy); model_file := None |}.

(** The directory once the empty [data] has been exported. *)
Definition header_only : @files toy :=
  {| csv_file := Some ([] : @csv toy); model_file := None |}.

(** The directory once a model answering "a", fitted on one column, has
    been saved. *)
Definition trained_files : @files toy :=
  {| csv_file := csv_file old_files;
     model_file := Some (Some ("a", 1%nat) : @blob toy) |}.

(** The process before one camera for any number of frame loops, and one
    before no camera. *)
Definition steady_cameras : nat -> nat -> option (@detection toy) :=
  fun _ _ => Some [flat_face 1].

Definition dead_cameras : nat -> nat -> option (@detection toy) :=
  fun _ _ => None.

(** The process after the first GET [/video_feed], and after the second. *)
Definition one_viewer : @server toy :=
  serve steady_cameras AVideoFeed (initial_server no_files).

Definition two_viewers : @server toy :=
  serve steady_cameras AVideoFeed one_viewer.

(** [k] rounds in which the loop 0, then the request 0, takes a step. *)
Definition turns (k : nat) : list (list action) :=
  repeat [ALoop 0; ARequest 0] k.

(** Requests for one sample: of "happy"; of "a" then "b". *)
Definition once_request : capture_request :=
  {| req_num_samples := 1; req_class_names := ["happy"] |}.

Definition ab_once_request : capture_request :=
  {| req_num_samples := 1; req_class_names := ["a"; "b"] |}.

Definition abc_request : capture_request :=
  {| req_num_samples := 1; req_class_names := ["a"; "b"; "c"] |}.

(** Two frame loops that both pass the test of line 71 before either
    counts its row: the handler reaches its poll, the loops go side by side
    through lines 51-73, and the handler returns. *)
Definition both_pass : list action :=
  repeat (ARequest 0) 4 ++ concat (repeat [ALoop 0; ALoop 1] 4) ++
  repeat (ARequest 0) 4.

Definition overshoot : @server toy :=
  play steady_cameras both_pass
    (serve steady_cameras (AStartCapture once_request) two_viewers).

(** The same for the first of two classes; then the loop 0 alone takes the
    frame of the second class. *)
Definition both_pass_then_one : list action :=
  repeat (ARequest 0) 4 ++ concat (repeat [ALoop 0; ALoop 1] 4) ++
  repeat (ARequest 0) 5 ++ repeat (ALoop 0) 8 ++ repeat (ARequest 0) 4.

Definition overshoot_ab : @server toy :=
  play steady_cameras both_pass_then_one
    (serve steady_cameras (AStartCapture ab_once_request) two_viewers).

(** A process that has trained on the dataset file of an earlier run, one
    column wide, has started predicting, and whose frame loop has reached
    line 79 with the landmarks of a frame. *)
Definition stale_model : @server toy :=
  play steady_cameras [ATrainModel; AStartPrediction; AVideoFeed; ALoop 0; ALoop 0]
    (initial_server old_files).





(** A directory whose model file is not a dump. *)
Definition garbage_files : @files toy :=
  {| csv_file := None; model_file := Some (None : @blob toy) |}.

(** * Properties *)

Section Capture.
Context {E : External}.
Variable camera : nat -> option detection.

Ltac bools :=
  repeat match goal with
  | H : (_ && _)%bool = true |- _ => apply andb_true_iff in H; destruct H
  | H : (_ && _)%bool = false |- _ => apply andb_false_iff in H
  | H : (_ <? _) = true |- _ => apply Z.ltb_lt in H
  | H : (_ <? _) = false |- _ => apply Z.ltb_ge in H
  | H : (_ >=? _) = true |- _ => rewrite Z.geb_le in H
  | H : (_ >=? _) = false |- _ => rewrite Z.geb_leb in H; apply Z.leb_gt in H
  end.

Lemma run_step_data cam gl pc :
  data (fst (fst (run_step cam gl pc))) =
  data gl ++ match pc with PAppend lm _ => [(current_class gl, lm)] | _ => [] end.
Proof.
  destruct pc; simpl; try (rewrite app_nil_r; reflexivity).
  - destruct cam as [[|f d]|]; simpl; rewrite app_nil_r; reflexivity.
  - destruct (is_capturing gl && _)%bool; simpl; rewrite app_nil_r; reflexivity.
  - reflexivity.
  - destruct (samples_captured gl >=? _); simpl; rewrite app_nil_r; reflexivity.
  - destruct (is_predicting gl), (trained_model gl);
      try destruct (_ =? _)%nat; try destruct (predict _ _); simpl; rewrite app_nil_r; reflexivity.
Qed.

Lemma coherent_step e s : coherent s -> coherent (step camera e s).
Proof.
  destruct s as [gl fl pc fno em cap rep].
  unfold coherent; simpl.
  destruct e; simpl.
  - (* the frame loop *)
    destruct pc; simpl.
    + destruct (camera fno) as [[|f d]|]; simpl; auto.
    + destruct (is_capturing gl && _)%bool eqn:G; simpl; bools.
      * destruct cap as [[]|]; simpl; intuition (try congruence; try lia).
      * destruct cap as [[]|]; simpl; intuition (try congruence; try lia).
    + destruct cap as [[]|]; simpl; intuition (try congruence; try lia).
    + destruct cap as [[]|]; simpl; intuition (try congruence; try lia).
    + auto.
    + destruct (samples_captured gl >=? _); simpl; auto.
    + destruct (is_predicting gl), (trained_model gl);
        try destruct (_ =? _)%nat; try destruct (predict _ _); simpl; auto.
    + auto.
    + auto.
    + auto.
  - (* the handler *)
    destruct cap as [[req|[|c rest]|rest|rest|rest|rest|]|]; simpl; auto;
      try solve [intuition (try congruence; try lia)].
    destruct (samples_captured gl <? _) eqn:G; simpl; bools.
    + auto.
    + intros [H0 [H1 [H2 H3]]]. repeat split; auto; try lia.
      destruct (in_block pc); auto. specialize (H2 eq_refl). lia.
  - destruct cap; simpl; auto.
  - unfold train_model.
    destruct (csv_file fl); simpl; auto.
    destruct (read_csv c) as [[X Y]|]; simpl; auto.
    destruct (train_test_split X Y) as [[[[? ?] ?] ?]|]; simpl; auto.
    destruct (fit f l); simpl; auto.
  - unfold start_prediction. destruct (model_file fl); simpl; auto.
    destruct (joblib_load _); simpl; auto.
  - auto.
  - unfold download_data. destruct (to_csv _ _); simpl; auto.
  - auto.
Qed.

(** Every step appends to [data] exactly the labels that [remaining] loses. *)
Lemma step_conserves e s :
  coherent s -> is_request e = false ->
  exists suf, data (shared (step camera e s)) = data (shared s) ++ suf /\
              map fst suf ++ remaining (step camera e s) = remaining s.
Proof.
  destruct s as [gl fl pc fno em cap rep].
  unfold coherent, remaining; simpl.
  intros [Hsc Hc] He.
  destruct e; simpl; try discriminate He.
  - (* the frame loop *)
    destruct pc; simpl.
    + exists []. destruct (camera fno) as [[|f d]|]; simpl; rewrite app_nil_r; auto.
    + exists []. destruct (is_capturing gl && _)%bool; simpl; rewrite app_nil_r; auto.
    + exists [(current_class gl, landmarks)]. split; [reflexivity|].
      destruct cap as [[]|]; simpl in *; try solve [intuition discriminate].
      destruct Hc as [_ [Hlt _]]. specialize (Hlt eq_refl).
      replace (Z.to_nat (num_samples gl) - (Z.to_nat (samples_captured gl) + 0))%nat
        with (S (Z.to_nat (num_samples gl) - (Z.to_nat (samples_captured gl) + 1)))%nat
        by lia.
      reflexivity.
    + exists []. simpl. split; [rewrite app_nil_r; reflexivity|].
      destruct cap as [[]|]; simpl in *; try solve [intuition discriminate].
      replace (Z.to_nat (samples_captured gl + 1) + 0)%nat
        with (Z.to_nat (samples_captured gl) + 1)%nat by lia.
      reflexivity.
    + exists []. simpl. rewrite app_nil_r; auto.
    + exists []. destruct (samples_captured gl >=? _); simpl; rewrite app_nil_r; auto.
    + exists []. destruct (is_predicting gl), (trained_model gl);
        try destruct (_ =? _)%nat; try destruct (predict _ _); simpl; rewrite app_nil_r; auto.
    + exists []. simpl. rewrite app_nil_r; auto.
    + exists []. simpl. rewrite app_nil_r; auto.
    + exists []. simpl. rewrite app_nil_r; auto.
  - (* the handler *)
    exists [].
    destruct cap as [[req|[|c rest]|rest|rest|rest|rest|]|]; simpl in *;
      try (rewrite app_nil_r; split; reflexivity).
    + (* line 116: the first poll owes a whole block *)
      rewrite app_nil_r. split; [reflexivity|].
      destruct Hc as [_ [Hb H0]]. rewrite H0.
      destruct pc; try discriminate Hb; simpl; rewrite Nat.sub_0_r; reflexivity.
    + destruct (samples_captured gl <? _) eqn:G; simpl; bools;
        rewrite app_nil_r; (split; [reflexivity|]); [reflexivity|].
      replace (Z.to_nat (num_samples gl) - (Z.to_nat (samples_captured gl) + uncounted pc))%nat
        with 0%nat by lia.
      reflexivity.
  - exists []. unfold train_model.
    destruct (csv_file fl); simpl; [|rewrite app_nil_r; auto].
    destruct (read_csv c) as [[X Y]|]; simpl; [|rewrite app_nil_r; auto].
    destruct (train_test_split X Y) as [[[[? ?] ?] ?]|]; simpl; [|rewrite app_nil_r; auto].
    destruct (fit f l); simpl; rewrite app_nil_r; auto.
  - exists []. unfold start_prediction.
    destruct (model_file fl); try destruct (joblib_load _); simpl;
      rewrite app_nil_r; auto.
  - exists []. simpl. rewrite app_nil_r; auto.
  - exists []. unfold download_data.
    destruct (to_csv _ _); simpl; rewrite app_nil_r; auto.
  - exists []. simpl. rewrite app_nil_r; auto.
Qed.

Lemma coherent_exec sched s : coherent s -> coherent (exec camera sched s).
Proof.
  revert s. induction sched as [|e sched IH]; simpl; intros s H; [exact H|].
  apply IH, coherent_step, H.
Qed.

Lemma exec_conserves sched s :
  coherent s -> no_request sched ->
  exists suf, data (shared (exec camera sched s)) = data (shared s) ++ suf /\
              map fst suf ++ remaining (exec camera sched s) = remaining s.
Proof.
  revert s. induction sched as [|e sched IH]; simpl; intros s Hc Hn.
  - exists []. simpl. rewrite app_nil_r. auto.
  - inversion Hn as [|? ? He Hn']; subst.
    destruct (step_conserves e Hc He) as [suf1 [D1 R1]].
    destruct (IH _ (coherent_step e Hc) Hn') as [suf2 [D2 R2]].
    exists (suf1 ++ suf2). split.
    + rewrite D2, D1, app_assoc. reflexivity.
    + rewrite map_app, <- app_assoc, <- R1. f_equal. exact R2.
Qed.

Lemma exec_app sched1 sched2 s :
  exec camera (sched1 ++ sched2) s = exec camera sched2 (exec camera sched1 s).
Proof.
  revert s. induction sched1 as [|e sched1 IH]; simpl; intros s; [reflexivity|].
  apply IH.
Qed.

(** *** Progress of a request *)

(** The short handlers touch neither the capture bookkeeping nor the loop. *)
Lemma step_handler_frame e s :
  match e with EvPipeline | EvCapture | EvStartCapture _ => False | _ => True end ->
  capture (step camera e s) = capture s /\
  ppc (step camera e s) = ppc s /\
  data (shared (step camera e s)) = data (shared s) /\
  samples_captured (shared (step camera e s)) = samples_captured (shared s) /\
  num_samples (shared (step camera e s)) = num_samples (shared s) /\
  is_capturing (shared (step camera e s)) = is_capturing (shared s) /\
  current_class (shared (step camera e s)) = current_class (shared s).
Proof.
  destruct s as [gl fl pc fno em cap rep].
  destruct e; simpl; try contradiction; intros _.
  - unfold train_model.
    destruct (csv_file fl); simpl; auto 10.
    destruct (read_csv c) as [[X Y]|]; simpl; auto 10.
    destruct (train_test_split X Y) as [[[[? ?] ?] ?]|]; simpl; auto 10.
    destruct (fit f l); simpl; auto 10.
  - unfold start_prediction.
    destruct (model_file fl); try destruct (joblib_load _); simpl; auto 10.
  - auto 10.
  - unfold download_data. destruct (to_csv _ _); simpl; auto 10.
  - auto 10.
Qed.

Ltac handler_frame s :=
  match goal with
  | |- context [step _ ?e s] =>
      destruct (step_handler_frame e s I) as [E1 [E2 [E3 [E4 [E5 [E6 E7]]]]]]
  end.

Lemma always_now P sched s : always P camera sched s -> P (shared s).
Proof. destruct sched; simpl; tauto. Qed.

Lemma always_app P sched1 sched2 s :
  always P camera (sched1 ++ sched2) s <->
  always P camera sched1 s /\ always P camera sched2 (exec camera sched1 s).
Proof.
  revert s. induction sched1 as [|e sched1 IH]; simpl; intros s.
  - pose proof (@always_now P sched2 s). tauto.
  - rewrite IH. tauto.
Qed.

Lemma always_all (P : globals -> Prop) sched s :
  (forall g, P g) -> always P camera sched s.
Proof.
  intros H. revert s. induction sched as [|e sched IH]; simpl; intros s; auto.
Qed.

(** The prediction of line 82 on a row that fills the columns. *)
Lemma run_step_predict gl lm ov :
  accepts_rows gl -> length lm = length feature_columns ->
  exists ov', run_step None gl (PPredict lm ov) = (gl, PEmit ov', None).
Proof.
  intros Ha Hl. simpl.
  destruct (is_predicting gl) eqn:Hp; [|eauto].
  destruct (trained_model gl) as [m|] eqn:Hm; [|eauto].
  rewrite Hl, Nat.eqb_refl.
  destruct (predict m lm) eqn:Hq; [eauto|].
  exfalso. exact (Ha Hp m Hm lm Hl Hq).
Qed.

Lemma pipe_ok_step e s :
  (forall i, good_frame (camera i)) -> accepts_rows (shared s) ->
  pipe_ok (ppc s) -> pipe_ok (ppc (step camera e s)).
Proof.
  intros good Ha.
  destruct e;
    try (intros H; handler_frame s; rewrite E2; exact H).
  - destruct s as [gl fl pc fno em cap rep]; simpl in *.
    destruct pc; simpl; try contradiction; auto.
    + intros _. destruct (good fno) as [d [-> [Hd Hl]]].
      destruct d as [|f d]; [contradiction|]. simpl. exact Hl.
    + destruct (is_capturing gl && _)%bool; simpl; auto.
    + destruct (samples_captured gl >=? _); simpl; auto.
    + intros Hl. destruct (@run_step_predict gl landmarks ov Ha Hl) as [ov' R].
      simpl in R. rewrite R. exact I.
  - destruct s as [gl fl pc fno em cap rep]; simpl.
    destruct cap as [cp|]; simpl; auto.
    destruct (start_capture_step gl cp) as [[g' pc'] out]. simpl. auto.
  - destruct s as [gl fl pc fno em cap rep]; simpl.
    destruct cap; simpl; auto.
Qed.

Lemma pipe_ok_exec sched s :
  (forall i, good_frame (camera i)) -> always accepts_rows camera sched s ->
  pipe_ok (ppc s) -> pipe_ok (ppc (exec camera sched s)).
Proof.
  intros good. revert s.
  induction sched as [|e sched IH]; simpl; intros s Ha H; [exact H|].
  destruct Ha as [Ha Ha'].
  apply IH; [exact Ha'|]. apply pipe_ok_step; assumption.
Qed.

(** A step of the frame loop, while the handler waits, brings the next
    sample nearer. *)
Lemma cost_pipeline_waiting s :
  (forall i, good_frame (camera i)) -> accepts_rows (shared s) ->
  coherent s -> pipe_ok (ppc s) -> waiting s = true ->
  (cost (step camera EvPipeline s) < cost s)%nat.
Proof.
  intros good Ha.
  destruct s as [gl fl pc fno em cap rep].
  unfold coherent, waiting, cost, pwork; simpl in *.
  destruct cap as [[req|r|r|r|r|r|]|]; try discriminate.
  intros [Hsc [Hcap [Hblk _]]] Hok Hw.
  assert (Hlt : samples_captured gl < num_samples gl) by (apply Z.ltb_lt; exact Hw).
  destruct pc; simpl in *; try contradiction.
  - destruct (good fno) as [d [-> [Hd Hl]]].
    destruct d as [|f d]; [contradiction|]. simpl. rewrite Hw. simpl. lia.
  - rewrite Hcap, Hw. simpl. rewrite Hw. simpl. lia.
  - rewrite Hw. simpl. lia.
  - rewrite Hw.
    destruct (samples_captured gl + 1 <? num_samples gl) eqn:G; bools; simpl; lia.
  - rewrite Hw. simpl. lia.
  - destruct (samples_captured gl >=? _); simpl; rewrite Hw; simpl; lia.
  - destruct (@run_step_predict gl landmarks ov Ha Hok) as [ov' R].
    simpl in R. rewrite R. simpl. rewrite Hw. simpl. lia.
  - rewrite Hw. simpl. lia.
Qed.


Lemma capture_waiting s :
  waiting s = true -> step camera EvCapture s = s.
Proof.
  destruct s as [gl fl pc fno em cap rep].
  unfold waiting; simpl.
  destruct cap as [[req|[|c r]|r|r|r|r|]|]; simpl; intros Hw; try discriminate.
  rewrite Hw. reflexivity.
Qed.

Lemma cost_capture_moving s :
  coherent s -> waiting s = false -> capture s <> None ->
  (cost (step camera EvCapture s) < cost s)%nat.
Proof.
  destruct s as [gl fl pc fno em cap rep].
  unfold coherent, waiting, cost, pwork; simpl.
  destruct cap as [[req|[|c r]|r|r|r|r|]|]; simpl; intros [Hsc Hc] Hw Hn;
    try lia; try congruence.
  - (* line 116: a whole block of work is bounded by 8 N *)
    destruct Hc as [_ [Hb H0]]. rewrite H0.
    destruct (0 <? num_samples gl) eqn:G; bools; [|lia].
    assert (dist pc <= 8)%nat by (destruct pc; simpl; lia).
    lia.
  - rewrite Hw. simpl. lia.
Qed.

(** No step of another thread undoes progress. *)
Lemma cost_step_le e s :
  (forall i, good_frame (camera i)) -> accepts_rows (shared s) ->
  coherent s -> pipe_ok (ppc s) -> is_request e = false ->
  (cost (step camera e s) <= cost s)%nat.
Proof.
  intros good Ha Hc Hok He.
  destruct e; try discriminate He;
    try (handler_frame s; unfold cost, pwork; rewrite E1, E2, E4, E5; lia).
  - destruct (waiting s) eqn:Hw.
    + apply Nat.lt_le_incl, cost_pipeline_waiting; assumption.
    + clear good Hok Ha. destruct s as [gl fl pc fno em cap rep].
      unfold coherent, waiting, cost, pwork in *; simpl in *.
      destruct Hc as [Hsc Hc].
      assert (Hfr : forall cam,
                 in_block pc = false ->
                 samples_captured (fst (fst (run_step cam gl pc))) = samples_captured gl /\
                 num_samples (fst (fst (run_step cam gl pc))) = num_samples gl).
      { intros cam Hb. destruct pc; simpl in *; try discriminate; auto.
        - destruct cam as [[|f d]|]; simpl; auto.
        - destruct (is_capturing gl && _)%bool; simpl; auto.
        - destruct (samples_captured gl >=? _); simpl; auto.
        - destruct (is_predicting gl), (trained_model gl);
            try destruct (_ =? _)%nat; try destruct (predict _ _); simpl; auto. }
      destruct (run_step (camera fno) gl pc) as [[g' pc'] out] eqn:R.
      simpl.
      destruct cap as [[req|r|r|r|r|r|]|]; simpl in *; try lia;
        try (destruct (Hfr (camera fno)) as [_ F2]; [tauto|];
             rewrite R in F2; simpl in F2; rewrite F2; lia).
      destruct Hc as [Hcap [Hblk _]].
      assert (Hb : in_block pc = false).
      { destruct (in_block pc); [|reflexivity]. specialize (Hblk eq_refl).
        bools. lia. }
      destruct (Hfr (camera fno) Hb) as [F1 F2].
      rewrite R in F1, F2; simpl in F1, F2. rewrite F1, F2, Hw. lia.
  - destruct (waiting s) eqn:Hw.
    + rewrite capture_waiting by assumption. lia.
    + destruct (capture s) eqn:Hcap.
      * apply Nat.lt_le_incl, cost_capture_moving; congruence.
      * destruct s; simpl in *. rewrite Hcap. lia.
Qed.

Lemma run_step_counters cam gl pc :
  num_samples (fst (fst (run_step cam gl pc))) = num_samples gl /\
  is_capturing (fst (fst (run_step cam gl pc))) = is_capturing gl /\
  current_class (fst (fst (run_step cam gl pc))) = current_class gl /\
  samples_captured (fst (fst (run_step cam gl pc))) =
    samples_captured gl + match pc with PIncr _ _ => 1 | _ => 0 end.
Proof.
  destruct pc; simpl; rewrite ?Z.add_0_r; auto.
  - destruct cam as [[|f d]|]; simpl; auto.
  - destruct (is_capturing gl && _)%bool; simpl; auto.
  - destruct (samples_captured gl >=? _); simpl; auto.
  - destruct (is_predicting gl), (trained_model gl);
      try destruct (_ =? _)%nat; try destruct (predict _ _); simpl; auto.
Qed.

Lemma step_pipeline_capture s :
  capture (step camera EvPipeline s) = capture s.
Proof.
  destruct s as [gl fl pc fno em cap rep]; simpl.
  destruct (run_step (camera fno) gl pc) as [[g' pc'] out]. reflexivity.
Qed.

(** Until the thread that can move does, it stays the one that can. *)
Lemma mover_stable e s :
  coherent s -> is_request e = false -> e <> mover s -> capture s <> None ->
  mover (step camera e s) = mover s /\ capture (step camera e s) <> None.
Proof.
  intros Hc He Hne Hcap.
  destruct e; try discriminate He;
    try (handler_frame s; unfold mover, waiting; rewrite E1, E4, E5; auto).
  - (* the frame loop steps while the handler can move *)
    assert (Hw : waiting s = false).
    { unfold mover in Hne. destruct (waiting s); [congruence|reflexivity]. }
    rewrite step_pipeline_capture. split; [|exact Hcap].
    unfold mover. rewrite Hw.
    destruct s as [gl fl pc fno em cap rep].
    unfold waiting, coherent in *; simpl in *.
    destruct (run_step_counters (camera fno) gl pc) as [F1 [_ [_ F2]]].
    destruct (run_step (camera fno) gl pc) as [[g' pc'] out]. simpl in *.
    destruct cap as [[req|r|r|r|r|r|]|]; try reflexivity.
    destruct Hc as [_ [_ [Hblk _]]]. bools.
    assert (Hb : in_block pc = false).
    { destruct (in_block pc); [|reflexivity]. specialize (Hblk eq_refl). lia. }
    replace (samples_captured g' <? num_samples g') with false; [reflexivity|].
    symmetry. apply Z.ltb_ge. rewrite F1, F2.
    destruct pc; simpl in Hb; try discriminate; lia.
  - (* the handler polls while it has to wait *)
    assert (Hw : waiting s = true).
    { unfold mover in Hne. destruct (waiting s); [reflexivity|congruence]. }
    rewrite capture_waiting by exact Hw. auto.
Qed.

Lemma cost_exec_le sched s :
  (forall i, good_frame (camera i)) -> always accepts_rows camera sched s ->
  coherent s -> pipe_ok (ppc s) -> no_request sched ->
  (cost (exec camera sched s) <= cost s)%nat.
Proof.
  intros good. revert s.
  induction sched as [|e sched IH]; simpl; intros s Ha Hc Hok Hn; [lia|].
  destruct Ha as [Ha Ha'].
  inversion Hn as [|? ? He Hn']; subst.
  etransitivity; [apply IH|apply cost_step_le]; auto.
  - apply coherent_step; assumption.
  - apply pipe_ok_step; assumption.
Qed.

Lemma cost_mover s :
  (forall i, good_frame (camera i)) -> accepts_rows (shared s) ->
  coherent s -> pipe_ok (ppc s) -> capture s <> None ->
  (cost (step camera (mover s) s) < cost s)%nat.
Proof.
  intros good Ha Hc Hok Hcap. unfold mover.
  destruct (waiting s) eqn:Hw.
  - apply cost_pipeline_waiting; assumption.
  - apply cost_capture_moving; assumption.
Qed.

Lemma event_is_mover e s : {e = mover s} + {e <> mover s}.
Proof.
  unfold mover. destruct (waiting s), e;
    solve [left; reflexivity | right; discriminate].
Qed.

(** A stretch in which the thread that can move gets to run brings the
    request forward. *)
Lemma stretch_progress r s :
  (forall i, good_frame (camera i)) -> always accepts_rows camera r s ->
  coherent s -> pipe_ok (ppc s) -> capture s <> None ->
  In (mover s) r -> no_request r ->
  (cost (exec camera r s) < cost s)%nat.
Proof.
  intros good. revert s.
  induction r as [|e r IH]; simpl; intros s Ha Hc Hok Hcap Hin Hn; [contradiction|].
  destruct Ha as [Ha Ha'].
  inversion Hn as [|? ? He Hn']; subst.
  assert (Hc' : coherent (step camera e s)) by (apply coherent_step; exact Hc).
  assert (Hok' : pipe_ok (ppc (step camera e s))) by (apply pipe_ok_step; assumption).
  destruct (event_is_mover e s) as [->|Hne].
  - eapply Nat.le_lt_trans; [apply cost_exec_le; assumption|].
    apply cost_mover; assumption.
  - destruct (mover_stable Hc He Hne Hcap) as [Hm Hcap'].
    destruct Hin as [Hin|Hin]; [congruence|].
    eapply Nat.lt_le_trans; [apply IH; auto; rewrite Hm; exact Hin|].
    apply cost_step_le; assumption.
Qed.

Lemma mover_cases s : mover s = EvPipeline \/ mover s = EvCapture.
Proof. unfold mover. destruct (waiting s); auto. Qed.

Lemma cost_zero s : cost s = 0%nat <-> capture s = None.
Proof.
  unfold cost. destruct (capture s) as [[req|r|r|r|r|r|]|]; simpl;
    split; intros H; try reflexivity; try discriminate; lia.
Qed.


(** Every fair round costs the request at least one of its moving steps. *)
Lemma rounds_progress rounds s :
  (forall i, good_frame (camera i)) ->
  always accepts_rows camera (concat rounds) s ->
  coherent s -> pipe_ok (ppc s) -> Forall fair_round rounds ->
  (cost (exec camera (concat rounds) s) <= cost s - length rounds)%nat.
Proof.
  intros good. revert s.
  induction rounds as [|r rounds IH]; simpl; intros s Ha Hc Hok Hf; [lia|].
  apply always_app in Ha. destruct Ha as [Ha Ha'].
  inversion Hf as [|? ? [Hp [Hh Hr]] Hf']; subst.
  rewrite exec_app.
  assert (Hc' : coherent (exec camera r s)) by (apply coherent_exec; exact Hc).
  assert (Hok' : pipe_ok (ppc (exec camera r s))) by (apply pipe_ok_exec; assumption).
  specialize (IH _ Ha' Hc' Hok' Hf').
  destruct (capture s) eqn:Hcap.
  - assert (cost (exec camera r s) < cost s)%nat; [|lia].
    apply stretch_progress; auto; [congruence|].
    destruct (mover_cases s) as [-> | ->]; assumption.
  - assert (cost s = 0%nat) by (apply cost_zero; exact Hcap).
    assert (cost (exec camera r s) <= cost s)%nat by (apply cost_exec_le; assumption).
    lia.
Qed.

(** *** The reply of a request *)

Lemma completions_step e s :
  is_request e = false ->
  (completions (step camera e s) + pending (step camera e s) =
   completions s + pending s)%nat.
Proof.
  destruct s as [gl fl pc fno em cap rep].
  unfold completions, pending.
  destruct e; simpl; try discriminate; intros _.
  - destruct (run_step (camera fno) gl pc) as [[g' pc'] out]. reflexivity.
  - destruct cap as [[req|[|c r]|r|r|r|r|]|]; simpl; try reflexivity.
    + destruct (samples_captured gl <? _); reflexivity.
    + rewrite filter_app, length_app. simpl. lia.
  - unfold train_model.
    destruct (csv_file fl); simpl.
    + destruct (read_csv c) as [[X Y]|]; simpl.
      * destruct (train_test_split X Y) as [[[[? ?] ?] ?]|]; simpl.
        -- destruct (fit f l); simpl; rewrite filter_app, length_app; simpl; lia.
        -- rewrite filter_app, length_app; simpl; lia.
      * rewrite filter_app, length_app; simpl; lia.
    + rewrite filter_app, length_app; simpl; lia.
  - unfold start_prediction.
    destruct (model_file fl); try destruct (joblib_load _); simpl;
      rewrite filter_app, length_app; simpl; lia.
  - rewrite filter_app, length_app; simpl; lia.
  - unfold download_data.
    destruct (to_csv _ _); simpl; rewrite filter_app, length_app; simpl; lia.
  - rewrite filter_app, length_app. unfold download_model.
    destruct (model_file fl); simpl; lia.
Qed.

Lemma completions_exec sched s :
  no_request sched ->
  (completions (exec camera sched s) + pending (exec camera sched s) =
   completions s + pending s)%nat.
Proof.
  revert s. induction sched as [|e sched IH]; simpl; intros s Hn; [reflexivity|].
  inversion Hn as [|? ? He Hn']; subst.
  rewrite IH by assumption. apply completions_step. exact He.
Qed.

(** *** One request, from its arrival *)

Lemma step_capture_counters s :
  num_samples (shared (step camera EvCapture s)) =
    match capture s with
    | Some (CInit req) => req_num_samples req
    | _ => num_samples (shared s)
    end.
Proof.
  destruct s as [gl fl pc fno em cap rep]; simpl.
  destruct cap as [[req|[|c r]|r|r|r|r|]|]; simpl; try reflexivity.
  destruct (samples_captured gl <? _); reflexivity.
Qed.

Lemma serving_step req e s :
  is_request e = false -> serving req s -> serving req (step camera e s).
Proof.
  intros He.
  destruct e; try discriminate He;
    try (handler_frame s; unfold serving; rewrite E1, E5; auto).
  - unfold serving. rewrite step_pipeline_capture.
    destruct s as [gl fl pc fno em cap rep]; simpl.
    destruct (run_step_counters (camera fno) gl pc) as [F1 _].
    destruct (run_step (camera fno) gl pc) as [[g' pc'] out]. simpl in *.
    rewrite F1. auto.
  - unfold serving. rewrite step_capture_counters.
    destruct s as [gl fl pc fno em cap rep]; simpl.
    destruct cap as [[r0|[|c r]|r|r|r|r|]|]; simpl; auto.
    + intros ->. reflexivity.
    + destruct (samples_captured gl <? _); auto.
Qed.

Lemma serving_exec req sched s :
  no_request sched -> serving req s -> serving req (exec camera sched s).
Proof.
  revert s. induction sched as [|e sched IH]; simpl; intros s Hn H; [exact H|].
  inversion Hn as [|? ? He Hn']; subst.
  apply IH; [assumption|]. apply serving_step; assumption.
Qed.






(** What a request has appended, and what it still owes, at any moment
    after its arrival. *)
Lemma request_run req sched s :
  coherent s -> capture s = None -> no_request sched ->
  let s0 := step camera (EvStartCapture req) s in
  coherent (exec camera sched s0) /\
  serving req (exec camera sched s0) /\
  (completions (exec camera sched s0) + pending (exec camera sched s0) =
   S (completions s))%nat /\
  exists suf,
    data (shared (exec camera sched s0)) = data (shared s) ++ suf /\
    map fst suf ++ remaining (exec camera sched s0) =
    blocks (req_num_samples req) (req_class_names req).
Proof.
  intros Hc Hcap Hn s0.
  assert (Hc0 : coherent s0) by (apply coherent_step; exact Hc).
  assert (E0 : s0 = {| shared := shared s; disk := disk s; ppc := ppc s;
                       frame_no := frame_no s; emitted := emitted s;
                       capture := Some (CInit req); replies := replies s |}).
  { unfold s0. simpl. rewrite Hcap. reflexivity. }
  split; [apply coherent_exec; exact Hc0|].
  split; [apply serving_exec; [exact Hn|]; rewrite E0; reflexivity|].
  split.
  - rewrite completions_exec by exact Hn. rewrite E0.
    unfold completions, pending. simpl. lia.
  - destruct (exec_conserves Hc0 Hn) as [suf [D R]].
    exists suf. rewrite D, R, E0. split; reflexivity.
Qed.

(** *** Lists of labels *)

Lemma repeat_prefix (a : string) (k : nat) (l1 l2 : list string) :
  l1 ++ l2 = repeat a k -> Forall (fun x => x = a) l1 /\ Forall (fun x => x = a) l2.
Proof.
  intros H.
  assert (F : Forall (fun x => x = a) (l1 ++ l2)).
  { rewrite H. apply Forall_forall. intros x Hx. eapply repeat_spec; exact Hx. }
  apply Forall_app in F. exact F.
Qed.

Lemma Forall_label (a : string) (l : list row) :
  Forall (fun x => x = a) (map fst l) -> Forall (fun r => fst r = a) l.
Proof.
  induction l as [|r l IH]; simpl; intros H; [constructor|].
  inversion H; subst. constructor; auto.
Qed.

(** A list of rows whose labels start [k] times [a], then [b]s: the first
    [k] rows are the [a]s and the rest the [b]s. *)
Lemma two_blocks (a b : string) (k : nat) (suf : list row) (rest : list string) :
  map fst suf ++ rest = repeat a k ++ repeat b k ->
  Forall (fun r => fst r = a) (firstn k suf) /\
  Forall (fun r => fst r = b) (skipn k suf) /\
  (skipn k suf <> [] -> length (firstn k suf) = k) /\
  (length suf + length rest = 2 * k)%nat.
Proof.
  unfold row in *. intros H.
  assert (Hlen : (length suf + length rest = 2 * k)%nat).
  { apply (f_equal (@length string)) in H.
    rewrite !length_app, length_map, !repeat_length in H. lia. }
  assert (H1 : firstn k (map fst suf ++ rest) = repeat a k).
  { rewrite H, firstn_app, repeat_length, Nat.sub_diag, firstn_O, app_nil_r.
    rewrite <- (repeat_length a k) at 1. apply firstn_all. }
  assert (H2 : skipn k (map fst suf ++ rest) = repeat b k).
  { rewrite H, skipn_app, repeat_length, Nat.sub_diag. simpl.
    rewrite <- (repeat_length a k) at 1. rewrite skipn_all. reflexivity. }
  rewrite firstn_app in H1. rewrite skipn_app in H2.
  rewrite firstn_map in H1. rewrite skipn_map in H2.
  apply repeat_prefix in H1. apply repeat_prefix in H2.
  split; [apply Forall_label, H1|].
  split; [apply Forall_label, H2|].
  split; [|exact Hlen].
  intros Hne. rewrite length_firstn.
  destruct (Nat.le_gt_cases k (length suf)); [lia|].
  exfalso. apply Hne. apply skipn_all2. lia.
Qed.


(** Every state the process can reach is coherent, and while every frame
    is a good one the frame loop is running. *)
Lemma reachable_coherent s : reachable camera s -> coherent s.
Proof.
  induction 1 as [fs0|e s Hr IH].
  - unfold coherent. simpl. repeat split; lia.
  - apply coherent_step. exact IH.
Qed.

(** *** One request in the application of one loop *)

(** A request for [n > 0] samples of one class. *)
Lemma one_class_run s c n sched :
  coherent s -> capture s = None -> 0 < n -> no_request sched ->
  let s' := exec camera sched
              (step camera
                 (EvStartCapture {| req_num_samples := n; req_class_names := [c] |}) s) in
  exists suf,
    data (shared s') = data (shared s) ++ suf /\
    Forall (fun r => fst r = c) suf /\
    (length suf <= Z.to_nat n)%nat /\
    (capture s' = None ->
       length suf = Z.to_nat n /\
       completions s' = S (completions s) /\
       coherent s') /\
    (capture s' = Some (CPoll []) ->
       length suf = (Z.to_nat (samples_captured (shared s')) + uncounted (ppc s'))%nat /\
       (waiting s' = false <-> samples_captured (shared s') = n)).
Proof.
  intros Hc Hcap Hn Hs s'.
  destruct (@request_run {| req_num_samples := n; req_class_names := [c] |} sched s
              Hc Hcap Hs) as [Hc' [Hsv [Hcp [suf [D R]]]]].
  fold s' in Hc', Hsv, Hcp, D, R.
  unfold blocks in R. simpl in R. rewrite app_nil_r in R.
  exists suf. split; [exact D|].
  assert (Hlen : (length suf + length (remaining s') = Z.to_nat n)%nat).
  { apply (f_equal (@length string)) in R.
    rewrite length_app, length_map, repeat_length in R. exact R. }
  split; [apply Forall_label; apply repeat_prefix in R; apply R|].
  split; [lia|].
  split.
  - intros Hnone. split; [|split; [|exact Hc']].
    + unfold remaining in Hlen. rewrite Hnone in Hlen. simpl in Hlen. lia.
    + unfold pending in Hcp. rewrite Hnone in Hcp. lia.
  - intros Hpoll. unfold remaining, coherent, serving, waiting in *.
    rewrite Hpoll in *. simpl in Hsv, Hlen.
    rewrite app_nil_r, repeat_length, Hsv in Hlen.
    destruct Hc' as [Hsc [_ [Hin Hout]]]. rewrite Hsv in Hin, Hout.
    destruct (ppc s'); simpl in *;
      try (specialize (Hout eq_refl)); try (specialize (Hin eq_refl));
      (split; [lia|]); rewrite Hsv, Z.ltb_ge; lia.
Qed.

(** A request for [n] samples of each of two classes. *)
Lemma two_class_run s a b n sched :
  coherent s -> capture s = None -> no_request sched ->
  let s' := exec camera sched
              (step camera
                 (EvStartCapture {| req_num_samples := n; req_class_names := [a; b] |}) s) in
  exists suf rest,
    data (shared s') = data (shared s) ++ suf /\
    map fst suf ++ rest = repeat a (Z.to_nat n) ++ repeat b (Z.to_nat n) /\
    Forall (fun r => fst r = a) (firstn (Z.to_nat n) suf) /\
    Forall (fun r => fst r = b) (skipn (Z.to_nat n) suf) /\
    (skipn (Z.to_nat n) suf <> [] -> length (firstn (Z.to_nat n) suf) = Z.to_nat n) /\
    (capture s' = None ->
       rest = [] /\ length suf = (2 * Z.to_nat n)%nat /\
       completions s' = S (completions s) /\ coherent s').
Proof.
  intros Hc Hcap Hs s'.
  destruct (@request_run {| req_num_samples := n; req_class_names := [a; b] |} sched s
              Hc Hcap Hs) as [Hc' [Hsv [Hcp [suf [D R]]]]].
  fold s' in Hc', Hsv, Hcp, D, R.
  unfold blocks in R. simpl in R. rewrite app_nil_r in R.
  exists suf, (remaining s').
  destruct (two_blocks _ _ _ _ _ R) as [Fa [Fb [Hfull Hlen]]].
  split; [exact D|]. split; [exact R|]. split; [exact Fa|]. split; [exact Fb|].
  split; [exact Hfull|].
  intros Hnone.
  split; [unfold remaining; rewrite Hnone; reflexivity|].
  split; [|split; [|exact Hc']].
  - unfold remaining in Hlen. rewrite Hnone in Hlen. simpl in Hlen.
    unfold row in *. lia.
  - unfold pending in Hcp. rewrite Hnone in Hcp. lia.
Qed.

(** A request for any list of classes. *)
Lemma any_class_run s req sched :
  coherent s -> capture s = None -> no_request sched ->
  let s' := exec camera sched (step camera (EvStartCapture req) s) in
  exists suf rest,
    data (shared s') = data (shared s) ++ suf /\
    map fst suf ++ rest = blocks (req_num_samples req) (req_class_names req) /\
    (capture s' = None ->
       rest = [] /\ completions s' = S (completions s) /\ coherent s').
Proof.
  intros Hc Hcap Hs s'.
  destruct (@request_run req sched s Hc Hcap Hs) as [Hc' [Hsv [Hcp [suf [D R]]]]].
  fold s' in Hc', Hsv, Hcp, D, R.
  exists suf, (remaining s'). split; [exact D|]. split; [exact R|].
  intros Hnone.
  split; [unfold remaining; rewrite Hnone; reflexivity|].
  split; [|exact Hc'].
  unfold pending in Hcp. rewrite Hnone in Hcp. lia.
Qed.

(** While every frame has a detection filling the columns and no prediction
    raises, a request has returned after as many fair rounds as it has
    moving steps. *)
Lemma request_returns s req rounds :
  (forall i, good_frame (camera i)) ->
  coherent s -> capture s = None -> pipe_ok (ppc s) ->
  Forall fair_round rounds ->
  always accepts_rows camera (concat rounds) (step camera (EvStartCapture req) s) ->
  (3 + 5 * length (req_class_names req) +
   length (req_class_names req) * (8 * Z.to_nat (req_num_samples req))
   <= length rounds)%nat ->
  capture (exec camera (concat rounds) (step camera (EvStartCapture req) s)) = None.
Proof.
  intros good Hc Hcap Hok Hf Ha Hl.
  set (s0 := step camera (EvStartCapture req) s) in *.
  assert (Hc0 : coherent s0) by (apply coherent_step; exact Hc).
  assert (E0 : s0 = {| shared := shared s; disk := disk s; ppc := ppc s;
                       frame_no := frame_no s; emitted := emitted s;
                       capture := Some (CInit req); replies := replies s |}).
  { unfold s0. simpl. rewrite Hcap. reflexivity. }
  assert (Hok0 : pipe_ok (ppc s0)) by (rewrite E0; exact Hok).
  remember (3 + 5 * length (req_class_names req) +
            length (req_class_names req) *
            (8 * Z.to_nat (req_num_samples req)))%nat as bound eqn:Hb.
  assert (Hcost : cost s0 = bound).
  { rewrite E0, Hb. unfold cost. cbn [capture hsteps]. reflexivity. }
  apply cost_zero.
  pose proof (rounds_progress good Ha Hc0 Hok0 Hf) as HH.
  rewrite Hcost in HH. clear Hb Hcost. unfold schedule in *. lia.
Qed.

(** *** The claims about [start_capture] *)


End Capture.

Section Handlers.
Context {E : External}.
Variable camera : nat -> option detection.

(** ** Landmarks *)

Lemma feature_columns_length : length feature_columns = 1404%nat.
Proof. vm_compute. reflexivity. Qed.

Lemma face_values_length (f : face) :
  length (face_values f) = (3 * length f)%nat.
Proof.
  unfold face_values.
  induction f as [|p f IH]; simpl; [reflexivity|].
  rewrite IH. lia.
Qed.

Lemma extract_landmarks_length (d : detection) :
  length (extract_landmarks d) = (3 * mesh_points d)%nat.
Proof.
  unfold extract_landmarks, mesh_points.
  induction d as [|f d IH]; simpl; [reflexivity|].
  rewrite length_app, IH, face_values_length. lia.
Qed.

Lemma one_face_fills (f : face) :
  length f = 468%nat -> length (extract_landmarks [f]) = length feature_columns.
Proof.
  intros Hf. rewrite extract_landmarks_length, feature_columns_length.
  unfold mesh_points. simpl. lia.
Qed.

Lemma detected_good (o : option detection) : detected o -> good_frame o.
Proof.
  intros [f [-> Hf]]. exists [f].
  split; [reflexivity|]. split; [discriminate|]. apply one_face_fills, Hf.
Qed.

(** C1.  On a frame in which the detector has found a face, lines 59-69
    produce exactly one list of landmarks: the [x], [y], [z] of the 468 mesh
    points of the first detected face, which is the only one the detector of
    line 49 gives.  The list has 468 * 3 = 1404 values whatever the frame,
    as many as there are feature columns. *)
Theorem landmarks_of_detected_face (gl : globals) (d : detection) :
  receivable d -> d <> [] ->
  exists f,
    hd_error d = Some f /\
    d = [f] /\
    run_step (Some d) gl PRead =
      (gl, PCheck (face_values f)
                  {| mesh_drawn := 1; capture_text := None;
                     prediction_text := None |}, None) /\
    length (face_values f) = (468 * 3)%nat /\
    length (face_values f) = length feature_columns.
Proof.
  intros [Hlen Hall] Hne.
  destruct d as [|f [|f' d]]; [contradiction| |simpl in Hlen; lia].
  inversion Hall as [|? ? Hf _]; subst.
  exists f. split; [reflexivity|]. split; [reflexivity|].
  pose proof (one_face_fills f Hf) as Hw.
  unfold extract_landmarks in Hw. simpl in *. rewrite app_nil_r in *.
  split; [reflexivity|]. split; [|exact Hw].
  rewrite face_values_length. lia.
Qed.

(** ** The frame loop on a frame without a face *)

(** C9.  On a frame in which no face is detected, the iteration of the frame
    loop is two steps, line 51-59 and line 86-89.  Neither changes a global
    (no row, no count) nor a file, neither raises, no prediction is made, and
    the frame is yielded without any drawing; whatever the other threads do
    between the two steps. *)
Theorem frame_without_face s :
  ppc s = PRead -> camera (frame_no s) = Some [] ->
  let s1 := step camera EvPipeline s in
  shared s1 = shared s /\ disk s1 = disk s /\ capture s1 = capture s /\
  replies s1 = replies s /\ emitted s1 = emitted s /\
  ppc s1 = PEmit plain_frame /\
  (forall s2, ppc s2 = PEmit plain_frame ->
     let s3 := step camera EvPipeline s2 in
     shared s3 = shared s2 /\ disk s3 = disk s2 /\ capture s3 = capture s2 /\
     replies s3 = replies s2 /\ ppc s3 = PRead /\
     emitted s3 = emitted s2 ++ [plain_frame]) /\
  exec camera [EvPipeline; EvPipeline] s =
    {| shared := shared s; disk := disk s; ppc := PRead;
       frame_no := S (frame_no s); emitted := emitted s ++ [plain_frame];
       capture := capture s; replies := replies s |}.
Proof.
  intros Hpc Hcam.
  destruct s as [gl fl pc fno em cap rep]. simpl in Hpc, Hcam. subst pc.
  simpl. rewrite Hcam. simpl.
  repeat split; auto;
    destruct s2 as [gl2 fl2 pc2 fno2 em2 cap2 rep2]; simpl in *; subst pc2;
    reflexivity.
Qed.

(** ** The dataset *)

Lemma step_data e s :
  data (shared (step camera e s)) =
  data (shared s) ++
  match e, ppc s with
  | EvPipeline, PAppend lm _ => [(current_class (shared s), lm)]
  | _, _ => []
  end.
Proof.
  destruct s as [gl fl pc fno em cap rep].
  destruct e; simpl.
  - pose proof (run_step_data (camera fno) gl pc) as H.
    destruct (run_step (camera fno) gl pc) as [[g' pc'] out]. simpl in *.
    rewrite H. destruct pc; reflexivity.
  - destruct cap as [[req|[|c r]|r|r|r|r|]|]; simpl; rewrite app_nil_r; auto.
    destruct (samples_captured gl <? _); reflexivity.
  - destruct cap; simpl; rewrite app_nil_r; reflexivity.
  - unfold train_model.
    destruct (csv_file fl); simpl; [|rewrite app_nil_r; auto].
    destruct (read_csv c) as [[X Y]|]; simpl; [|rewrite app_nil_r; auto].
    destruct (train_test_split X Y) as [[[[? ?] ?] ?]|]; simpl; [|rewrite app_nil_r; auto].
    destruct (fit f l); simpl; rewrite app_nil_r; auto.
  - unfold start_prediction.
    destruct (model_file fl); try destruct (joblib_load _); simpl;
      rewrite app_nil_r; auto.
  - simpl. rewrite app_nil_r; auto.
  - unfold download_data.
    destruct (to_csv _ _); simpl; rewrite app_nil_r; auto.
  - rewrite app_nil_r; auto.
Qed.

(** C10.  [data] only grows.  A step of any thread leaves the rows already
    there as they are and in their order; the only step that adds one is
    line 72 of the frame loop, which appends it at the end.  No handler
    removes or replaces a row, [download_data] included, so over any schedule
    the former [data] is a prefix of the later one. *)
Theorem dataset_append_only :
  (forall e s,
     data (shared (step camera e s)) =
     data (shared s) ++
     match e, ppc s with
     | EvPipeline, PAppend lm _ => [(current_class (shared s), lm)]
     | _, _ => []
     end) /\
  (forall s, shared (step camera EvDownloadData s) = shared s) /\
  (forall sched s, exists suf,
     data (shared (exec camera sched s)) = data (shared s) ++ suf).
Proof.
  split; [exact step_data|]. split.
  - intros s. destruct s as [gl fl pc fno em cap rep]. simpl.
    unfold download_data. destruct (to_csv _ _); reflexivity.
  - induction sched as [|e sched IH]; simpl; intros s.
    + exists []. rewrite app_nil_r. reflexivity.
    + destruct (IH (step camera e s)) as [suf Hs].
      rewrite step_data in Hs. rewrite <- app_assoc in Hs.
      eexists. exact Hs.
Qed.

(** ** Training *)

(** C4 (as the code has it).  [train_model] looks at the file
    [facial_expressions.csv] and never at [data].  When the file does not
    exist it replies "Please capture the data first." with [success] false,
    trains nothing and leaves the globals and both files as they are; it
    gives this reply in no other case.  Whatever the outcome, [data] is left
    alone, and unless the reply is the one of a successful training the
    model file and [trained_model] are unchanged. *)
Theorem train_model_without_file (gl : globals) (fl : files) :
  (csv_file fl = None -> train_model gl fl = (gl, fl, Json capture_first)) /\
  (snd (train_model gl fl) = Json capture_first <-> csv_file fl = None) /\
  data (fst (fst (train_model gl fl))) = data gl /\
  ((forall a, snd (train_model gl fl) <> Json (model_trained a)) ->
   fst (train_model gl fl) = (gl, fl)).
Proof.
  unfold train_model.
  destruct (csv_file fl) as [c|]; simpl.
  - split; [discriminate|].
    destruct (read_csv c) as [[X Y]|]; simpl;
      [|repeat split; auto; discriminate].
    destruct (train_test_split X Y) as [[[[X1 X2] y1] y2]|]; simpl;
      [|repeat split; auto; discriminate].
    destruct (fit X1 y1) as [m|]; simpl;
      [|repeat split; auto; discriminate].
    repeat split; auto; try discriminate.
    intros H. exfalso. eapply H. reflexivity.
  - repeat split; auto.
Qed.

(** ** Prediction *)

Lemma run_step_predicting cam gl pc :
  is_predicting (fst (fst (run_step cam gl pc))) = is_predicting gl.
Proof.
  destruct pc; simpl; auto.
  - destruct cam as [[|f d]|]; simpl; auto.
  - destruct (is_capturing gl && _)%bool; simpl; auto.
  - destruct (samples_captured gl >=? _); simpl; auto.
  - destruct (is_predicting gl) eqn:Hp, (trained_model gl);
      try destruct (_ =? _)%nat; try destruct (predict _ _); simpl; auto.
Qed.

(** C8.  [stop_prediction] always replies with success; it turns
    [is_predicting] off and changes no other global, [trained_model]
    included; and a second call leaves the globals as the first left them. *)
Theorem stop_prediction_idempotent (gl : globals) :
  snd (stop_prediction gl) = Json prediction_stopped /\
  success prediction_stopped = true /\
  fst (stop_prediction gl) = set_is_predicting false gl /\
  is_predicting (fst (stop_prediction gl)) = false /\
  trained_model (fst (stop_prediction gl)) = trained_model gl /\
  stop_prediction (fst (stop_prediction gl)) = stop_prediction gl.
Proof. repeat split. Qed.

End Handlers.

(** * Further properties of the code *)

Section Beyond.
Context {E : External}.
Variable camera : nat -> option detection.

(** ** What the handlers leave alone *)

(** X2.  [train_model], [start_prediction], [stop_prediction],
    [download_data] and [download_model] change nothing a capture rests on:
    the request being served and its position, the frame loop, [data],
    [is_capturing], [current_class], [num_samples] and [samples_captured]
    are after the handler what they were before. *)
Theorem handlers_leave_capture_alone e s :
  match e with
  | EvPipeline | EvCapture | EvStartCapture _ => True
  | _ =>
      capture (step camera e s) = capture s /\
      ppc (step camera e s) = ppc s /\
      frame_no (step camera e s) = frame_no s /\
      emitted (step camera e s) = emitted s /\
      data (shared (step camera e s)) = data (shared s) /\
      is_capturing (shared (step camera e s)) = is_capturing (shared s) /\
      current_class (shared (step camera e s)) = current_class (shared s) /\
      num_samples (shared (step camera e s)) = num_samples (shared s) /\
      samples_captured (shared (step camera e s)) = samples_captured (shared s) /\
      capturing_complete (shared (step camera e s)) = capturing_complete (shared s)
  end.
Proof.
  destruct s as [gl fl pc fno em cap rep].
  destruct e; simpl; auto.
  - unfold train_model.
    destruct (csv_file fl); simpl; auto 12.
    destruct (read_csv c) as [[X Y]|]; simpl; auto 12.
    destruct (train_test_split X Y) as [[[[? ?] ?] ?]|]; simpl; auto 12.
    destruct (fit f l); simpl; auto 12.
  - unfold start_prediction.
    destruct (model_file fl); try destruct (joblib_load _); simpl; auto 12.
  - auto 12.
  - unfold download_data. destruct (to_csv _ _); simpl; auto 12.
  - auto 12.
Qed.

(** ** The rows of the dataset *)

Lemma from_camera_later k k' lm :
  (k <= k')%nat -> from_camera camera k lm -> from_camera camera k' lm.
Proof.
  intros Hk [i [d [Hi H]]]. exists i, d. split; [lia|exact H].
Qed.

Lemma run_step_held cam gl pc lm :
  held (snd (fst (run_step cam gl pc))) = Some lm ->
  held pc = Some lm \/
  (pc = PRead /\ exists d, cam = Some d /\ d <> [] /\ lm = extract_landmarks d).
Proof.
  destruct pc; simpl; auto; try discriminate.
  - destruct cam as [[|f d]|]; simpl; try discriminate.
    intros H. inversion H. right. split; [reflexivity|].
    exists (f :: d). repeat split. discriminate.
  - destruct (is_capturing gl && _)%bool; simpl; auto.
  - destruct (samples_captured gl >=? _); simpl; auto.
  - destruct (is_predicting gl), (trained_model gl);
      try destruct (_ =? _)%nat; try destruct (predict _ _); simpl; discriminate.
Qed.

Lemma step_frame_no e s : (frame_no s <= frame_no (step camera e s))%nat.
Proof.
  destruct s as [gl fl pc fno em cap rep].
  destruct e; simpl; auto.
  - destruct (run_step (camera fno) gl pc) as [[g' pc'] out]. simpl.
    destruct pc; lia.
  - destruct cap as [cp|]; simpl; auto.
    destruct (start_capture_step gl cp) as [[g' pc'] out]. simpl. lia.
  - destruct cap; simpl; lia.
  - destruct (train_model gl fl) as [[g' fs'] r]. simpl. lia.
  - destruct (start_prediction gl fl) as [g' r]. simpl. lia.
  - destruct (download_data gl fl) as [fs' r]. simpl. lia.
Qed.

Ltac handler_held s :=
  match goal with
  | |- context [step _ ?e s] =>
      destruct (step_handler_frame camera e s I) as [E1 [E2 [E3 [E4 [E5 [E6 E7]]]]]]
  end.

Lemma step_held e s lm :
  held (ppc (step camera e s)) = Some lm ->
  held (ppc s) = Some lm \/
  from_camera camera (frame_no (step camera e s)) lm.
Proof.
  destruct e;
    try (intros H; handler_held s; rewrite E2 in H; auto).
  - destruct s as [gl fl pc fno em cap rep]. simpl.
    pose proof (@run_step_held (camera fno) gl pc lm) as H.
    destruct (run_step (camera fno) gl pc) as [[g' pc'] out]. simpl in *.
    intros Hh. destruct (H Hh) as [H1|[-> [d [Hc [Hd Hl]]]]]; [auto|].
    right. exists fno, d. repeat split; auto.
  - destruct s as [gl fl pc fno em cap rep]. simpl.
    destruct cap as [cp|]; simpl; auto.
    destruct (start_capture_step gl cp) as [[g' pc'] out]. simpl. auto.
  - destruct s as [gl fl pc fno em cap rep]. simpl.
    destruct cap; simpl; auto.
Qed.

Lemma reachable_rows s :
  reachable camera s ->
  Forall (fun r => from_camera camera (frame_no s) (snd r)) (data (shared s)) /\
  (forall lm, held (ppc s) = Some lm -> from_camera camera (frame_no s) lm).
Proof.
  induction 1 as [fs0|e s Hr [IHd IHh]].
  - split; [constructor|]. intros lm H. discriminate H.
  - assert (Hh : forall lm, held (ppc (step camera e s)) = Some lm ->
                   from_camera camera (frame_no (step camera e s)) lm).
    { intros lm H. destruct (step_held e s H) as [H1|H1]; [|exact H1].
      eapply from_camera_later; [apply step_frame_no|]. apply IHh, H1. }
    split; [|exact Hh].
    rewrite (step_data camera e s). apply Forall_app. split.
    + eapply Forall_impl; [|exact IHd].
      intros r Hfr. eapply from_camera_later; [apply step_frame_no|exact Hfr].
    + destruct e; try constructor.
      destruct (ppc s) eqn:Hpc; try constructor; [|constructor].
      apply (from_camera_later (step_frame_no EvPipeline s)).
      apply IHh. reflexivity.
Qed.

(** X4.  In every state the process can reach, the values of each row of
    [data] are the landmarks of a frame the frame loop has read, one in
    which a face was detected; and so are the landmarks the loop holds. *)
Theorem rows_come_from_frames s :
  reachable camera s ->
  Forall (fun r => from_camera camera (frame_no s) (snd r)) (data (shared s)) /\
  (forall lm, held (ppc s) = Some lm -> from_camera camera (frame_no s) lm).
Proof. exact (@reachable_rows s). Qed.

(** X5.  When every frame has a detection filling the 1404 feature
    columns, every row of [data] has 1404 values in every state the process
    can reach: with its label, as many fields as [download_data] has
    columns. *)
Theorem rows_fill_columns s :
  (forall i, good_frame (camera i)) -> reachable camera s ->
  Forall (fun r => length (snd r) = 1404%nat /\
                   S (length (snd r)) = length columns)
         (data (shared s)).
Proof.
  intros good Hr.
  destruct (reachable_rows Hr) as [Hd _].
  eapply Forall_impl; [|exact Hd].
  intros r [i [d [_ [Hc [_ Hl]]]]].
  destruct (good i) as [d' [Hc' [_ Hw]]].
  rewrite Hc in Hc'. inversion Hc'; subst d'.
  rewrite Hl, Hw. unfold columns. simpl.
  rewrite feature_columns_length. auto.
Qed.

(** ** A request and a camera without a face *)



(** ** One iteration of the frame loop *)

Lemma exec_cons e sched s :
  exec camera (e :: sched) s = exec camera sched (step camera e s).
Proof. reflexivity. Qed.

Lemma step_pipeline_eq gl fl pc fno em cap rep :
  step camera EvPipeline
    {| shared := gl; disk := fl; ppc := pc; frame_no := fno; emitted := em;
       capture := cap; replies := rep |} =
  {| shared := fst (fst (run_step (camera fno) gl pc)); disk := fl;
     ppc := snd (fst (run_step (camera fno) gl pc));
     frame_no := match pc with PRead => S fno | _ => fno end;
     emitted := emit (snd (run_step (camera fno) gl pc)) em;
     capture := cap; replies := rep |}.
Proof.
  simpl. destruct (run_step (camera fno) gl pc) as [[g' pc'] out]. reflexivity.
Qed.

Ltac tidy :=
  cbn [run_step fst snd emit set_data set_samples_captured
       set_capturing_complete data trained_model is_predicting is_capturing
       current_class num_samples samples_captured capturing_complete
       mesh_drawn capture_text prediction_text andb].

Ltac tick := rewrite exec_cons, step_pipeline_eq; tidy.

(** X7.  A frame with the face detected, read while a capture is on and
    its count short, and on which the prediction of line 82, if it is made,
    does not raise: the eight steps of the iteration, when no other thread
    steps in between, append one row (the current class and the landmarks of
    the frame), add one to [samples_captured], set [capturing_complete] if
    the count has reached [num_samples], and yield the frame with its mesh,
    the text of the count after the addition, and the prediction of the
    active model if [is_predicting] is on: capture and prediction are not
    exclusive. *)
Theorem frame_captured s f :
  ppc s = PRead -> camera (frame_no s) = Some [f] -> length f = 468%nat ->
  accepts (shared s) (extract_landmarks [f]) ->
  is_capturing (shared s) = true ->
  samples_captured (shared s) < num_samples (shared s) ->
  exec camera (repeat EvPipeline 8) s =
    {| shared :=
         {| data := data (shared s) ++ [(current_class (shared s), extract_landmarks [f])];
            trained_model := trained_model (shared s);
            is_predicting := is_predicting (shared s);
            is_capturing := true;
            current_class := current_class (shared s);
            num_samples := num_samples (shared s);
            samples_captured := samples_captured (shared s) + 1;
            capturing_complete :=
              if samples_captured (shared s) + 1 >=? num_samples (shared s)
              then true else capturing_complete (shared s) |};
       disk := disk s; ppc := PRead; frame_no := S (frame_no s);
       emitted := emitted s ++
         [{| mesh_drawn := 1;
             capture_text := Some (current_class (shared s),
                                   samples_captured (shared s) + 1,
                                   num_samples (shared s));
             prediction_text := prediction_of (shared s) (extract_landmarks [f]) |}];
       capture := capture s; replies := replies s |}.
Proof.
  intros Hpc Hcam Hf Hacc Hcap Hlt.
  pose proof (one_face_fills f Hf) as Hw.
  destruct s as [gl fl pc fno em cap rep].
  destruct gl as [dt tm ip ic cc ns sc cpl].
  cbn [ppc frame_no shared is_capturing samples_captured num_samples] in Hpc, Hcam, Hcap, Hlt.
  unfold accepts in Hacc.
  cbn [shared is_predicting trained_model] in Hacc.
  subst pc ic.
  apply Z.ltb_lt in Hlt.
  unfold prediction_of.
  cbn [repeat shared disk frame_no emitted capture replies data trained_model
       is_predicting is_capturing current_class num_samples samples_captured
       capturing_complete].
  rewrite exec_cons, step_pipeline_eq, Hcam. tidy.
  tick. rewrite Hlt. tidy.
  tick. tick. tick. tick.
  destruct (sc + 1 >=? ns); tidy; tick;
    destruct ip; destruct tm as [m|]; rewrite ?Hw, ?Nat.eqb_refl; tidy;
    try (destruct (predict m (extract_landmarks [f])) eqn:Hq;
         [|exfalso; exact (Hacc eq_refl m eq_refl Hq)]);
    tick; reflexivity.
Qed.

(** X8.  A frame with the face detected, read while no capture is on or its
    count is full, and on which the prediction of line 82, if it is made,
    does not raise: the four steps of the iteration, when no other thread
    steps in between, change no global and yield the frame with its mesh, no
    text of a count, and the prediction of the active model if
    [is_predicting] is on. *)
Theorem frame_not_captured s f :
  ppc s = PRead -> camera (frame_no s) = Some [f] -> length f = 468%nat ->
  accepts (shared s) (extract_landmarks [f]) ->
  (is_capturing (shared s) && (samples_captured (shared s) <? num_samples (shared s)))%bool
    = false ->
  exec camera (repeat EvPipeline 4) s =
    {| shared := shared s;
       disk := disk s; ppc := PRead; frame_no := S (frame_no s);
       emitted := emitted s ++
         [{| mesh_drawn := 1;
             capture_text := None;
             prediction_text := prediction_of (shared s) (extract_landmarks [f]) |}];
       capture := capture s; replies := replies s |}.
Proof.
  intros Hpc Hcam Hf Hacc Hg.
  pose proof (one_face_fills f Hf) as Hw.
  destruct s as [gl fl pc fno em cap rep].
  destruct gl as [dt tm ip ic cc ns sc cpl].
  cbn [ppc frame_no shared is_capturing samples_captured num_samples] in Hpc, Hcam, Hg.
  unfold accepts in Hacc.
  cbn [shared is_predicting trained_model] in Hacc.
  subst pc.
  unfold prediction_of.
  cbn [repeat shared disk frame_no emitted capture replies data trained_model
       is_predicting is_capturing current_class num_samples samples_captured
       capturing_complete].
  rewrite exec_cons, step_pipeline_eq, Hcam. tidy.
  rewrite exec_cons, step_pipeline_eq.
  cbn [run_step is_capturing samples_captured num_samples].
  rewrite Hg. tidy.
  tick. destruct ip; destruct tm as [m|]; rewrite ?Hw, ?Nat.eqb_refl; tidy;
    try (destruct (predict m (extract_landmarks [f])) eqn:Hq;
         [|exfalso; exact (Hacc eq_refl m eq_refl Hq)]);
    tick; reflexivity.
Qed.

(** ** The two files *)

Lemma step_files e s :
  (forall c, csv_file (disk s) = Some c ->
     exists c', csv_file (disk (step camera e s)) = Some c') /\
  (forall b, model_file (disk s) = Some b ->
     exists b', model_file (disk (step camera e s)) = Some b').
Proof.
  destruct s as [gl fl pc fno em cap rep].
  destruct e; simpl.
  - destruct (run_step (camera fno) gl pc) as [[g' pc'] out]. simpl. eauto.
  - destruct cap as [cp|]; simpl; eauto.
    destruct (start_capture_step gl cp) as [[g' pc'] out]. simpl. eauto.
  - destruct cap; simpl; eauto.
  - unfold train_model.
    destruct (csv_file fl) as [c0|] eqn:Hc; simpl; [|split; intros; eauto; discriminate].
    destruct (read_csv c0) as [[X Y]|]; simpl; [|rewrite Hc; eauto].
    destruct (train_test_split X Y) as [[[[? ?] ?] ?]|]; simpl; [|rewrite Hc; eauto].
    destruct (fit f l); simpl; [|rewrite Hc; eauto].
    eauto.
  - destruct (start_prediction gl fl) as [g' r]. simpl. eauto.
  - eauto.
  - unfold download_data. destruct (to_csv _ _); simpl; eauto.
  - eauto.
Qed.

Lemma exec_files sched s :
  (forall c, csv_file (disk s) = Some c ->
     exists c', csv_file (disk (exec camera sched s)) = Some c') /\
  (forall b, model_file (disk s) = Some b ->
     exists b', model_file (disk (exec camera sched s)) = Some b').
Proof.
  revert s. induction sched as [|e sched IH]; simpl; intros s; [eauto|].
  destruct (step_files e s) as [S1 S2].
  destruct (IH (step camera e s)) as [I1 I2].
  split.
  - intros c Hc. destruct (S1 c Hc) as [c' Hc']. eauto.
  - intros b Hb. destruct (S2 b Hb) as [b' Hb']. eauto.
Qed.

(** X9.  No step of the process removes the model file.  Once
    [modele_decision_tree.h5] exists it exists after any schedule; then
    [download_model] sends the file, and [start_prediction] never replies
    "Train the model please.": it replies with success when [joblib.load]
    reads the file. *)
Theorem model_file_is_kept s b sched :
  model_file (disk s) = Some b ->
  exists b',
    model_file (disk (exec camera sched s)) = Some b' /\
    download_model (disk (exec camera sched s)) = SentModel b' /\
    snd (start_prediction (shared (exec camera sched s)) (disk (exec camera sched s)))
      <> Json train_first /\
    (joblib_load b' <> None ->
     snd (start_prediction (shared (exec camera sched s)) (disk (exec camera sched s)))
       = Json prediction_started).
Proof.
  intros Hb. destruct (exec_files sched s) as [_ H].
  destruct (H b Hb) as [b' Hb'].
  exists b'. unfold start_prediction, download_model. rewrite Hb'.
  split; [reflexivity|]. split; [reflexivity|].
  destruct (joblib_load b'); simpl; split;
    try discriminate; try reflexivity.
  intros Hx. exfalso. apply Hx. reflexivity.
Qed.

(** X10.  No step of the process removes the dataset file.  Once
    [facial_expressions.csv] exists it exists after any schedule, and then
    [train_model] never replies "Please capture the data first.". *)
Theorem dataset_file_is_kept s c sched :
  csv_file (disk s) = Some c ->
  exists c',
    csv_file (disk (exec camera sched s)) = Some c' /\
    snd (train_model (shared (exec camera sched s)) (disk (exec camera sched s)))
      <> Json capture_first.
Proof.
  intros Hc. destruct (exec_files sched s) as [H _].
  destruct (H c Hc) as [c' Hc'].
  exists c'. split; [exact Hc'|].
  unfold train_model. rewrite Hc'.
  destruct (read_csv c') as [[X Y]|]; simpl; [|discriminate].
  destruct (train_test_split X Y) as [[[[? ?] ?] ?]|]; simpl; [|discriminate].
  destruct (fit f l); simpl; discriminate.
Qed.

(** X11.  A training that replies with success has fitted a model [m], made
    it the active model without touching another global, left the dataset
    file as it was and written [joblib.dump] of [m] to the model file.
    After it [download_model] sends that content, and [start_prediction]
    succeeds, replacing the active model by what [joblib.load] reads from
    that content. *)
Theorem train_then_predict (gl g' : globals) (fl fl' : files) (a : score) :
  train_model gl fl = (g', fl', Json (model_trained a)) ->
  exists m m',
    g' = set_trained_model (Some m) gl /\
    fl' = {| csv_file := csv_file fl; model_file := Some (joblib_dump m) |} /\
    download_model fl' = SentModel (joblib_dump m) /\
    joblib_load (joblib_dump m) = Some m' /\
    start_prediction g' fl' =
      (set_is_predicting true (set_trained_model (Some m') g'),
       Json prediction_started).
Proof.
  unfold train_model.
  destruct (csv_file fl) as [c|]; [|discriminate].
  destruct (read_csv c) as [[X Y]|]; [|discriminate].
  destruct (train_test_split X Y) as [[[[X1 X2] y1] y2]|]; [|discriminate].
  destruct (fit X1 y1) as [m|]; [|discriminate].
  intros H. inversion H; subst.
  destruct (joblib_load (joblib_dump m)) as [m'|] eqn:Hl;
    [|exfalso; exact (joblib_reads_dump m Hl)].
  exists m, m'. unfold start_prediction. simpl. rewrite Hl. repeat split.
Qed.

(** X12.  [download_data] writes the table built from [data] to the dataset
    file, sends it, and leaves the model file alone; after it [train_model]
    does not reply "Please capture the data first.", whatever [data] holds.
    When the table cannot be built the handler raises and no file
    changes. *)
Theorem export_then_train (gl : globals) (fl : files) :
  match to_csv columns (data gl) with
  | Some c =>
      download_data gl fl =
        ({| csv_file := Some c; model_file := model_file fl |}, SentCsv c) /\
      snd (train_model gl (fst (download_data gl fl))) <> Json capture_first
  | None => download_data gl fl = (fl, Unhandled)
  end.
Proof.
  unfold download_data.
  destruct (to_csv columns (data gl)) as [c|]; [|reflexivity].
  split; [reflexivity|]. simpl. unfold train_model. simpl.
  destruct (read_csv c) as [[X Y]|]; simpl; [|discriminate].
  destruct (train_test_split X Y) as [[[[? ?] ?] ?]|]; simpl; [|discriminate].
  destruct (fit f l); simpl; discriminate.
Qed.

(** ** The frames yielded *)

Lemma handlers_frame_no e s :
  match e with EvPipeline | EvCapture | EvStartCapture _ => False | _ => True end ->
  frame_no (step camera e s) = frame_no s /\
  emitted (step camera e s) = emitted s.
Proof.
  destruct s as [gl fl pc fno em cap rep].
  destruct e; simpl; try contradiction; intros _.
  - destruct (train_model gl fl) as [[g' fs'] r]. auto.
  - destruct (start_prediction gl fl) as [g' r]. auto.
  - auto.
  - destruct (download_data gl fl) as [fs' r]. auto.
  - auto.
Qed.

(** X13.  In every state the process can reach, the frame loop has yielded
    every frame it has read but the one it is working on: the number of
    frames read is the number of frames yielded, plus one when the loop is
    in the middle of an iteration (or ended in one). *)
Theorem one_frame_per_read s :
  reachable camera s ->
  frame_no s = (length (emitted s) + in_flight (ppc s))%nat.
Proof.
  induction 1 as [fs0|e s Hr IH]; [reflexivity|].
  destruct e;
    try (match goal with
         | |- context [step _ ?e0 s] =>
             destruct (handlers_frame_no e0 s I) as [F1 F2]
         end;
         handler_held s; rewrite F1, F2, E2; exact IH).
  - destruct s as [gl fl pc fno em cap rep]. simpl in *.
    destruct pc; simpl in *;
      try (rewrite length_app; simpl; lia);
      try (destruct (camera fno) as [[|f d]|]; simpl; lia);
      try (destruct (_ && _)%bool; simpl; lia);
      try (destruct (_ >=? _); simpl; lia);
      try lia.
    destruct (is_predicting gl), (trained_model gl);
      try destruct (_ =? _)%nat; try destruct (predict _ _); simpl; lia.
  - destruct s as [gl fl pc fno em cap rep]. simpl in *.
    destruct cap as [cp|]; simpl; auto.
    destruct (start_capture_step gl cp) as [[g' pc'] out]. simpl. exact IH.
  - destruct s as [gl fl pc fno em cap rep]. simpl in *.
    destruct cap; simpl; auto.
Qed.

(** ** [capturing_complete] *)

Lemma step_capturing_complete e s :
  capturing_complete (shared s) = true ->
  capturing_complete (shared (step camera e s)) = true.
Proof.
  destruct s as [gl fl pc fno em cap rep].
  destruct e; simpl.
  - destruct pc; simpl; auto.
    + destruct (camera fno) as [[|f d]|]; simpl; auto.
    + destruct (is_capturing gl && _)%bool; simpl; auto.
    + destruct (samples_captured gl >=? _); simpl; auto.
    + destruct (is_predicting gl), (trained_model gl);
        try destruct (_ =? _)%nat; try destruct (predict _ _); simpl; auto.
  - destruct cap as [[req|[|c r]|r|r|r|r|]|]; simpl; auto.
    destruct (samples_captured gl <? _); simpl; auto.
  - destruct cap; simpl; auto.
  - unfold train_model.
    destruct (csv_file fl); simpl; auto.
    destruct (read_csv c) as [[X Y]|]; simpl; auto.
    destruct (train_test_split X Y) as [[[[? ?] ?] ?]|]; simpl; auto.
    destruct (fit f l); simpl; auto.
  - unfold start_prediction. destruct (model_file fl); simpl; auto.
    destruct (joblib_load _); simpl; auto.
  - auto.
  - unfold download_data. destruct (to_csv _ _); simpl; auto.
  - auto.
Qed.

(** X14.  Nothing resets [capturing_complete].  Once line 77 has set it, it
    is set after any schedule, also one that brings and serves further
    [start_capture] requests. *)
Theorem capturing_complete_is_never_reset s sched :
  capturing_complete (shared s) = true ->
  capturing_complete (shared (exec camera sched s)) = true.
Proof.
  revert s. induction sched as [|e sched IH]; simpl; intros s H; [exact H|].
  apply IH, step_capturing_complete, H.
Qed.

Lemma reachable_exec sched s :
  reachable camera s -> reachable camera (exec camera sched s).
Proof.
  revert s. induction sched as [|e sched IH]; simpl; intros s H; [exact H|].
  apply IH. constructor. exact H.
Qed.

End Beyond.

(** * The process with any number of frame loops *)

Section Process.
Context {E : External}.
Variable cameras : nat -> nat -> option detection.

(** ** Lists updated in place *)

Lemma put_length (A : Type) i (x : A) l : length (put i x l) = length l.
Proof. revert i. induction l as [|h t IH]; intros [|i]; simpl; auto. Qed.

Lemma nth_error_put_eq (A : Type) i (x : A) l :
  (i < length l)%nat -> nth_error (put i x l) i = Some x.
Proof.
  revert i. induction l as [|h t IH]; intros [|i]; simpl; intros H;
    try lia; auto.
  apply IH. lia.
Qed.

Lemma nth_error_put_ne (A : Type) i j (x : A) l :
  i <> j -> nth_error (put i x l) j = nth_error l j.
Proof.
  revert i j. induction l as [|h t IH]; intros [|i] [|j]; simpl; intros H;
    auto; try congruence.
Qed.

Lemma put_same (A : Type) i (x : A) l : nth_error l i = Some x -> put i x l = l.
Proof.
  revert i. induction l as [|h t IH]; intros [|i]; simpl; intros H;
    try discriminate.
  - inversion H. reflexivity.
  - f_equal. auto.
Qed.

Lemma nth_nth_error (A : Type) (l : list A) i d :
  nth i l d = match nth_error l i with Some x => x | None => d end.
Proof. revert i. induction l as [|h t IH]; intros [|i]; simpl; auto. Qed.

(** ** The process seen as one loop and one request *)

(** A loop that has ended does nothing. *)
Lemma run_step_halted cam gl pc :
  halted pc = true -> run_step cam gl pc = (gl, pc, None).
Proof. destruct pc; simpl; intros H; try discriminate; reflexivity. Qed.

Lemma serve_ended_loop j l sv :
  nth_error (sv_loops sv) j = Some l -> halted (loop_pc l) = true ->
  serve cameras (ALoop j) sv = sv.
Proof.
  intros Hl Hh. unfold serve. rewrite Hl, (run_step_halted _ _ _ Hh).
  assert (El : {| loop_pc := loop_pc l;
                  loop_frames := match loop_pc l with
                                 | PRead => S (loop_frames l)
                                 | _ => loop_frames l
                                 end;
                  loop_emitted := emit None (loop_emitted l) |} = l).
  { destruct l as [pc fr em]. simpl in *.
    destruct pc; try discriminate Hh; reflexivity. }
  rewrite El, (put_same _ _ Hl). destruct sv; reflexivity.
Qed.

(** While nothing starts, what the process does is what the application of
    its loop [i] and its request [k] does. *)
Lemma serve_view i k a sv :
  sole_loop i sv -> lone_request k sv -> calm a = true ->
  sole_loop i (serve cameras a sv) /\
  lone_request k (serve cameras a sv) /\
  view i k (serve cameras a sv) = exec (cameras i) (lower i k a) (view i k sv).
Proof.
  intros Hsole Hlone Hcalm.
  destruct a; try discriminate Hcalm.
  - (* a frame loop *)
    unfold lower. destruct (Nat.eqb_spec i0 i) as [->|Hne].
    + destruct Hsole as [Hi Hend].
      destruct (nth_error (sv_loops sv) i) as [l|] eqn:Hl;
        [|apply nth_error_None in Hl; lia].
      destruct sv as [gl fl loops reqs rep]. simpl in *.
      unfold view, sole_loop, lone_request. simpl. rewrite Hl.
      rewrite (nth_nth_error loops), Hl.
      destruct (run_step (cameras i (loop_frames l)) gl (loop_pc l))
        as [[g' pc'] out] eqn:R.
      simpl. rewrite put_length.
      split; [split; [exact Hi|]|].
      * intros j l' Hj. rewrite nth_error_put_ne by congruence. apply Hend, Hj.
      * split; [exact Hlone|].
        rewrite nth_nth_error, nth_error_put_eq by exact Hi. reflexivity.
    + destruct (nth_error (sv_loops sv) i0) as [l|] eqn:Hl.
      * rewrite (@serve_ended_loop i0 l sv Hl)
          by (destruct Hsole as [_ H]; eapply H; eauto).
        auto.
      * unfold serve. rewrite Hl. auto.
  - (* a request *)
    unfold lower. destruct (Nat.eqb_spec j k) as [->|Hne].
    + destruct sv as [gl fl loops reqs rep]. simpl in *.
      unfold view, sole_loop, lone_request in *. simpl in *.
      rewrite (nth_nth_error reqs).
      destruct (nth_error reqs k) as [[pc|]|] eqn:Hr; simpl; auto.
      * destruct (start_capture_step gl pc) as [[g' pc'] out] eqn:R. simpl.
        assert (Hk : (k < length reqs)%nat)
          by (apply nth_error_Some; congruence).
        split; [exact Hsole|].
        split.
        -- intros j Hj. rewrite nth_nth_error, nth_error_put_ne by congruence.
           rewrite <- nth_nth_error. apply Hlone, Hj.
        -- rewrite (nth_nth_error (put k pc' reqs)), nth_error_put_eq by exact Hk.
           reflexivity.
      * rewrite (nth_nth_error reqs), Hr. auto.
      * rewrite (nth_nth_error reqs), Hr. auto.
    + assert (Hj : nth j (sv_requests sv) None = None) by (apply Hlone, Hne).
      rewrite nth_nth_error in Hj.
      unfold serve. destruct (nth_error (sv_requests sv) j) as [r|]; [subst r|]; auto.
  - destruct sv as [gl fl loops reqs rep]. unfold view, sole_loop, lone_request in *.
    simpl in *. destruct (train_model gl fl) as [[g' fs'] r]. simpl. auto.
  - destruct sv as [gl fl loops reqs rep]. unfold view, sole_loop, lone_request in *.
    simpl in *. destruct (start_prediction gl fl) as [g' r]. simpl. auto.
  - destruct sv as [gl fl loops reqs rep]. unfold view, sole_loop, lone_request in *.
    simpl in *. auto.
  - destruct sv as [gl fl loops reqs rep]. unfold view, sole_loop, lone_request in *.
    simpl in *. destruct (download_data gl fl) as [fs' r]. simpl. auto.
  - destruct sv as [gl fl loops reqs rep]. unfold view, sole_loop, lone_request in *.
    simpl in *. auto.
Qed.

Lemma play_view i k acts sv :
  sole_loop i sv -> lone_request k sv -> Forall (fun a => calm a = true) acts ->
  sole_loop i (play cameras acts sv) /\
  lone_request k (play cameras acts sv) /\
  view i k (play cameras acts sv) =
    exec (cameras i) (lowers i k acts) (view i k sv).
Proof.
  revert sv. induction acts as [|a acts IH]; simpl; intros sv Hs Hl Hc; [auto|].
  inversion Hc as [|? ? Ha Hc']; subst.
  destruct (@serve_view i k a sv Hs Hl Ha) as [Hs' [Hl' Hv]].
  destruct (IH _ Hs' Hl' Hc') as [Hs'' [Hl'' Hv']].
  split; [exact Hs''|]. split; [exact Hl''|].
  rewrite Hv', Hv. unfold lowers. simpl. rewrite exec_app. reflexivity.
Qed.

Lemma lower_no_request i k a : no_request (lower i k a).
Proof.
  destruct a; simpl; try destruct (_ =? _)%nat; repeat constructor.
Qed.

Lemma lowers_no_request i k acts : no_request (lowers i k acts).
Proof.
  unfold lowers. induction acts as [|a acts IH]; simpl; [constructor|].
  apply Forall_app. split; [apply lower_no_request|exact IH].
Qed.

Lemma lower_short i k a : lower i k a = [] \/ exists e, lower i k a = [e].
Proof.
  destruct a; simpl; try destruct (_ =? _)%nat; eauto.
Qed.

Lemma lowers_concat i k rounds :
  lowers i k (concat rounds) = concat (map (lowers i k) rounds).
Proof.
  unfold lowers. induction rounds as [|r rounds IH]; simpl; [reflexivity|].
  rewrite flat_map_app, IH. reflexivity.
Qed.

Lemma fair_lowers i k r : fair i k r -> fair_round (lowers i k r).
Proof.
  intros [Hp [Hh Hc]]. split; [|split].
  - apply in_flat_map. exists (ALoop i). split; [exact Hp|].
    simpl. rewrite Nat.eqb_refl. left. reflexivity.
  - apply in_flat_map. exists (ARequest k). split; [exact Hh|].
    simpl. rewrite Nat.eqb_refl. left. reflexivity.
  - apply lowers_no_request.
Qed.

Lemma fair_calm i k rounds :
  Forall (fair i k) rounds -> Forall (fun a => calm a = true) (concat rounds).
Proof.
  induction 1 as [|r rounds [_ [_ Hr]] _ IH]; simpl; [constructor|].
  apply Forall_app. split; assumption.
Qed.

Lemma always_view P i k acts sv :
  sole_loop i sv -> lone_request k sv -> Forall (fun a => calm a = true) acts ->
  throughout P cameras acts sv ->
  always P (cameras i) (lowers i k acts) (view i k sv).
Proof.
  revert sv. induction acts as [|a acts IH]; simpl; intros sv Hs Hl Hc [Hp Ht].
  - split; [exact Hp|exact I].
  - inversion Hc as [|? ? Ha Hc']; subst.
    destruct (@serve_view i k a sv Hs Hl Ha) as [Hs' [Hl' Hv]].
    specialize (IH _ Hs' Hl' Hc' Ht). rewrite Hv in IH.
    unfold lowers in *. simpl. apply always_app. split; [|exact IH].
    apply always_now in IH.
    destruct (lower_short i k a) as [Hlow | [e Hlow]]; rewrite Hlow in *; simpl in *.
    + auto.
    + auto.
Qed.

(** *** A request from its arrival *)

Lemma nth_all_none (reqs : list (option capture_pc)) j :
  Forall (fun r => r = None) reqs -> nth j reqs None = None.
Proof.
  intros H. revert j. induction H as [|r reqs Hr _ IH]; intros [|j]; simpl; auto.
Qed.

Lemma all_none_nth (reqs : list (option capture_pc)) :
  (forall j, nth j reqs None = None) -> Forall (fun r => r = None) reqs.
Proof.
  induction reqs as [|r reqs IH]; intros H; constructor.
  - exact (H 0%nat).
  - apply IH. intros j. exact (H (S j)).
Qed.

Lemma arrival_view i req sv :
  no_request_served sv ->
  lone_request (length (sv_requests sv)) (serve cameras (AStartCapture req) sv) /\
  capture (view i (length (sv_requests sv)) sv) = None /\
  view i (length (sv_requests sv)) (serve cameras (AStartCapture req) sv) =
    step (cameras i) (EvStartCapture req) (view i (length (sv_requests sv)) sv).
Proof.
  intros Hn.
  assert (Hk : forall j, nth j (sv_requests sv) None = None)
    by (intros j; apply nth_all_none, Hn).
  split; [|split].
  - intros j Hj. simpl.
    destruct (Nat.lt_ge_cases j (length (sv_requests sv))) as [H|H].
    + rewrite app_nth1 by exact H. apply Hk.
    + rewrite app_nth2 by exact H.
      destruct (j - length (sv_requests sv))%nat as [|[|d]] eqn:Hd;
        [lia|reflexivity|reflexivity].
  - apply Hk.
  - unfold view. simpl. rewrite Hk.
    rewrite app_nth2, Nat.sub_diag by lia. reflexivity.
Qed.

Lemma serve_requests_length a sv :
  (length (sv_requests sv) <= length (sv_requests (serve cameras a sv)))%nat.
Proof.
  destruct a; simpl; try lia.
  - destruct (nth_error (sv_loops sv) i) as [l|]; [|lia].
    destruct (run_step _ _ _) as [[g' pc'] out]. simpl. lia.
  - rewrite length_app. simpl. lia.
  - destruct (nth_error (sv_requests sv) j) as [[pc|]|]; try lia.
    destruct (start_capture_step _ _) as [[g' pc'] out]. simpl.
    rewrite put_length. lia.
  - destruct (train_model _ _) as [[g' fs'] r]. simpl. lia.
  - destruct (start_prediction _ _) as [g' r]. simpl. lia.
  - destruct (download_data _ _) as [fs' r]. simpl. lia.
Qed.

Lemma play_requests_length acts sv :
  (length (sv_requests sv) <= length (sv_requests (play cameras acts sv)))%nat.
Proof.
  revert sv. induction acts as [|a acts IH]; simpl; intros sv; [lia|].
  etransitivity; [apply serve_requests_length|apply IH].
Qed.

Lemma returned_view i k sv :
  (k < length (sv_requests sv))%nat ->
  (returned k sv <-> capture (view i k sv) = None).
Proof.
  intros Hk. unfold returned, view. simpl. rewrite nth_nth_error.
  destruct (nth_error (sv_requests sv) k) as [r|] eqn:H;
    [|apply nth_error_None in H; lia].
  split; congruence.
Qed.

Lemma idle_coherent i k sv :
  idle i sv -> capture (view i k sv) = None -> coherent (view i k sv).
Proof.
  intros [H1 [H2 H3]] Hc. unfold coherent. rewrite Hc. simpl. auto.
Qed.

Lemma coherent_idle i k sv :
  coherent (view i k sv) -> capture (view i k sv) = None -> idle i sv.
Proof.
  unfold coherent. intros [H1 H2] Hc. rewrite Hc in H2. simpl in *.
  unfold idle. tauto.
Qed.

(** A request that arrives while one loop runs and no request is served,
    and the run of the process after it while nothing starts: it is the run
    of the application of that loop and that request. *)
Lemma request_view i req sv acts :
  sole_loop i sv -> no_request_served sv -> idle i sv ->
  Forall (fun a => calm a = true) acts ->
  let k := length (sv_requests sv) in
  let sv' := play cameras acts (serve cameras (AStartCapture req) sv) in
  coherent (view i k sv) /\ capture (view i k sv) = None /\
  view i k sv' =
    exec (cameras i) (lowers i k acts)
      (step (cameras i) (EvStartCapture req) (view i k sv)) /\
  (returned k sv' <-> capture (view i k sv') = None) /\
  (capture (view i k sv') = None -> no_request_served sv') /\
  sv_shared sv' = shared (view i k sv') /\
  sv_completions sv' = completions (view i k sv').
Proof.
  intros Hs Hn Hi Hc k sv'.
  destruct (@arrival_view i req sv Hn) as [Hl [Hcap Hv]].
  fold k in Hl, Hcap, Hv.
  assert (Hs0 : sole_loop i (serve cameras (AStartCapture req) sv)) by exact Hs.
  destruct (@play_view i k acts _ Hs0 Hl Hc) as [Hs' [Hl' Hv']].
  fold sv' in Hs', Hl', Hv'.
  split; [apply idle_coherent; assumption|]. split; [exact Hcap|].
  split; [rewrite Hv', Hv; reflexivity|].
  split; [|split; [|split; reflexivity]].
  - apply returned_view. unfold sv'.
    eapply Nat.lt_le_trans; [|apply play_requests_length].
    simpl. rewrite length_app. simpl. lia.
  - intros Hnone. apply all_none_nth. intros j.
    destruct (Nat.eq_dec j k) as [->|Hj]; [exact Hnone|apply Hl', Hj].
Qed.

Lemma request_view_returns i req sv rounds :
  sole_loop i sv -> no_request_served sv -> idle i sv ->
  (forall m, detected (cameras i m)) ->
  pipe_ok (loop_pc (nth i (sv_loops sv) new_loop)) ->
  Forall (fair i (length (sv_requests sv))) rounds ->
  throughout accepts_rows cameras (concat rounds)
    (serve cameras (AStartCapture req) sv) ->
  (3 + 5 * length (req_class_names req) +
   length (req_class_names req) * (8 * Z.to_nat (req_num_samples req))
   <= length rounds)%nat ->
  returned (length (sv_requests sv))
    (play cameras (concat rounds) (serve cameras (AStartCapture req) sv)).
Proof.
  intros Hs Hn Hi Hcam Hok Hf Ha Hlen.
  pose proof (fair_calm Hf) as Hc.
  destruct (@request_view i req sv (concat rounds) Hs Hn Hi Hc)
    as [Hco [Hcap [Hv [Hret _]]]].
  destruct (@arrival_view i req sv Hn) as [Hl [_ Hv0]].
  apply Hret. rewrite Hv, lowers_concat.
  apply request_returns; auto.
  - intros m. apply detected_good, Hcam.
  - apply Forall_map. eapply Forall_impl; [|exact Hf].
    intros r. apply fair_lowers.
  - rewrite <- lowers_concat, <- Hv0. apply always_view; auto.
  - rewrite length_map. exact Hlen.
Qed.

(** While [is_predicting] is off and no [start_prediction] comes, no
    prediction is made, so none raises. *)
Lemma throughout_not_predicting acts sv :
  is_predicting (sv_shared sv) = false ->
  Forall (fun a => a <> AStartPrediction) acts ->
  throughout accepts_rows cameras acts sv.
Proof.
  revert sv. induction acts as [|a acts IH]; simpl; intros sv Hp Hf.
  - split; [|exact I]. intros H. congruence.
  - split; [intros H; congruence|].
    inversion Hf as [|? ? Ha Hf']; subst.
    apply IH; [|exact Hf'].
    destruct a; simpl; auto.
    + destruct (nth_error (sv_loops sv) i) as [l|]; [|exact Hp].
      pose proof (run_step_predicting (cameras i (loop_frames l)) (sv_shared sv)
                    (loop_pc l)) as H.
      destruct (run_step _ _ _) as [[g' pc'] out]. simpl in *. congruence.
    + destruct (nth_error (sv_requests sv) j) as [[pc|]|]; try exact Hp.
      destruct pc as [req|[|c r]|r|r|r|r|]; simpl; auto.
      destruct (samples_captured _ <? _); simpl; auto.
    + unfold train_model.
      destruct (csv_file _); simpl; auto.
      destruct (read_csv c) as [[X Y]|]; simpl; auto.
      destruct (train_test_split X Y) as [[[[? ?] ?] ?]|]; simpl; auto.
      destruct (fit f l); simpl; auto.
    + congruence.
    + unfold download_data. destruct (to_csv _ _); simpl; auto.
Qed.

(** ** [start_capture] in the process *)

(** C3 (as the code has it).  A request for [n > 0] samples of one class
    [c] that arrives while no capture is on, no other request is served and
    one frame loop runs, and whose service sees neither a new GET
    [/video_feed] nor another [start_capture]: at every moment the rows
    appended since its arrival are all labelled [c] and are at most [n];
    while the handler polls, they are as many as [samples_captured] counts
    (plus the row line 73 has yet to count), and the poll lets the handler
    through exactly when [samples_captured] has reached [n]; once the
    handler has returned they are exactly [n], the reply has been given, no
    capture is on and no request is served.  When every frame of the loop
    shows the face and no prediction raises, the handler has returned after
    [8 + 8 n] fair rounds. *)
Theorem capture_exactly_n sv i c n :
  sole_loop i sv -> no_request_served sv -> idle i sv -> 0 < n ->
  let k := length (sv_requests sv) in
  let sv0 := serve cameras
               (AStartCapture {| req_num_samples := n; req_class_names := [c] |}) sv in
  (forall acts, Forall (fun a => calm a = true) acts ->
     let sv' := play cameras acts sv0 in
     exists suf,
       data (sv_shared sv') = data (sv_shared sv) ++ suf /\
       Forall (fun r => fst r = c) suf /\
       (length suf <= Z.to_nat n)%nat /\
       (returned k sv' ->
          length suf = Z.to_nat n /\
          sv_completions sv' = S (sv_completions sv) /\
          idle i sv' /\ no_request_served sv') /\
       (nth_error (sv_requests sv') k = Some (Some (CPoll [])) ->
          length suf =
            (Z.to_nat (samples_captured (sv_shared sv')) +
             uncounted (loop_pc (nth i (sv_loops sv') new_loop)))%nat /\
          ((samples_captured (sv_shared sv') <? num_samples (sv_shared sv')) = false
           <-> samples_captured (sv_shared sv') = n))) /\
  ((forall m, detected (cameras i m)) ->
   pipe_ok (loop_pc (nth i (sv_loops sv) new_loop)) ->
   forall rounds, Forall (fair i k) rounds ->
     throughout accepts_rows cameras (concat rounds) sv0 ->
     (8 + 8 * Z.to_nat n <= length rounds)%nat ->
     returned k (play cameras (concat rounds) sv0)).
Proof.
  intros Hs Hn Hi Hpos k sv0. split.
  - intros acts Hc sv'.
    destruct (@request_view i {| req_num_samples := n; req_class_names := [c] |}
                sv acts Hs Hn Hi Hc)
      as [Hco [Hcap [Hv [Hret [Hnone [Hsh Hcp]]]]]].
    fold k in Hco, Hcap, Hv, Hret, Hnone, Hsh, Hcp.
    fold sv0 in Hv, Hret, Hnone, Hsh, Hcp. fold sv' in Hv, Hret, Hnone, Hsh, Hcp.
    destruct (@one_class_run _ (cameras i) (view i k sv) c n (lowers i k acts)
                Hco Hcap Hpos (lowers_no_request i k acts))
      as [suf [D [F [L [Hdone Hpoll]]]]].
    rewrite <- Hv in D, Hdone, Hpoll.
    exists suf. split; [exact D|]. split; [exact F|]. split; [exact L|].
    split.
    + intros Hr. apply Hret in Hr.
      destruct (Hdone Hr) as [H1 [H2 H3]].
      split; [exact H1|]. split; [exact H2|].
      split; [eapply coherent_idle; eassumption|apply Hnone, Hr].
    + intros Hp.
      assert (Hp' : capture (view i k sv') = Some (CPoll [])).
      { unfold view. simpl. rewrite nth_nth_error, Hp. reflexivity. }
      destruct (Hpoll Hp') as [H1 H2]. split; [exact H1|].
      unfold waiting in H2. rewrite Hp' in H2. exact H2.
  - intros Hcam Hok rounds Hf Ha Hl.
    apply request_view_returns with (i := i); auto.
    simpl. lia.
Qed.

(** C6 (as the code has it).  A request for [n] samples of each of the
    classes [a] and [b], in this order, that arrives while no capture is
    on, no other request is served and one frame loop runs, and whose
    service sees neither a new GET [/video_feed] nor another
    [start_capture]: at every moment the labels of the rows appended since
    its arrival are a prefix of [n] times [a] followed by [n] times [b].  So
    the first [n] rows appended are labelled [a], every later one [b], and a
    row labelled [b] is appended only after [n] rows labelled [a]; once the
    handler has returned the labels are all of it.  When every frame of the
    loop shows the face and no prediction raises, the handler has returned
    after [13 + 16 n] fair rounds. *)
Theorem capture_in_order sv i a b n :
  sole_loop i sv -> no_request_served sv -> idle i sv ->
  let k := length (sv_requests sv) in
  let sv0 := serve cameras
               (AStartCapture {| req_num_samples := n; req_class_names := [a; b] |}) sv in
  (forall acts, Forall (fun x => calm x = true) acts ->
     let sv' := play cameras acts sv0 in
     exists suf rest,
       data (sv_shared sv') = data (sv_shared sv) ++ suf /\
       map fst suf ++ rest = repeat a (Z.to_nat n) ++ repeat b (Z.to_nat n) /\
       Forall (fun r => fst r = a) (firstn (Z.to_nat n) suf) /\
       Forall (fun r => fst r = b) (skipn (Z.to_nat n) suf) /\
       (skipn (Z.to_nat n) suf <> [] -> length (firstn (Z.to_nat n) suf) = Z.to_nat n) /\
       (returned k sv' ->
          map fst suf = repeat a (Z.to_nat n) ++ repeat b (Z.to_nat n) /\
          length suf = (2 * Z.to_nat n)%nat /\
          sv_completions sv' = S (sv_completions sv))) /\
  ((forall m, detected (cameras i m)) ->
   pipe_ok (loop_pc (nth i (sv_loops sv) new_loop)) ->
   forall rounds, Forall (fair i k) rounds ->
     throughout accepts_rows cameras (concat rounds) sv0 ->
     (13 + 16 * Z.to_nat n <= length rounds)%nat ->
     returned k (play cameras (concat rounds) sv0)).
Proof.
  intros Hs Hn Hi k sv0. split.
  - intros acts Hc sv'.
    destruct (@request_view i {| req_num_samples := n; req_class_names := [a; b] |}
                sv acts Hs Hn Hi Hc)
      as [Hco [Hcap [Hv [Hret [Hnone [Hsh Hcp]]]]]].
    fold k in Hco, Hcap, Hv, Hret, Hnone, Hsh, Hcp.
    fold sv0 in Hv, Hret, Hnone, Hsh, Hcp. fold sv' in Hv, Hret, Hnone, Hsh, Hcp.
    destruct (@two_class_run _ (cameras i) (view i k sv) a b n (lowers i k acts)
                Hco Hcap (lowers_no_request i k acts))
      as [suf [rest [D [R [Fa [Fb [Hfull Hdone]]]]]]].
    rewrite <- Hv in D, Hdone.
    exists suf, rest. split; [exact D|]. split; [exact R|].
    split; [exact Fa|]. split; [exact Fb|]. split; [exact Hfull|].
    intros Hr. apply Hret in Hr.
    destruct (Hdone Hr) as [H1 [H2 [H3 _]]].
    subst rest. rewrite app_nil_r in R.
    split; [exact R|]. split; [exact H2|exact H3].
  - intros Hcam Hok rounds Hf Ha Hl.
    apply request_view_returns with (i := i); auto.
    simpl. lia.
Qed.

(** X1.  A [start_capture] request for [n] samples of each class of any
    list, that arrives while no capture is on, no other request is served
    and one frame loop runs, and whose service sees neither a new GET
    [/video_feed] nor another [start_capture]: at every moment the labels of
    the rows appended since are a prefix of [n] times the first class, then
    [n] times the second, and so on; once the handler has returned they are
    all of it, the reply has been given once, no capture is on and no
    request is served.  When every frame of the loop shows the face and no
    prediction raises, the handler has returned after [3 + 5 k + 8 n k] fair
    rounds, [k] the number of classes. *)
Theorem capture_all_classes sv i req :
  sole_loop i sv -> no_request_served sv -> idle i sv ->
  let k := length (sv_requests sv) in
  let sv0 := serve cameras (AStartCapture req) sv in
  (forall acts, Forall (fun x => calm x = true) acts ->
     let sv' := play cameras acts sv0 in
     exists suf rest,
       data (sv_shared sv') = data (sv_shared sv) ++ suf /\
       map fst suf ++ rest = blocks (req_num_samples req) (req_class_names req) /\
       (returned k sv' ->
          rest = [] /\
          sv_completions sv' = S (sv_completions sv) /\
          idle i sv' /\ no_request_served sv')) /\
  ((forall m, detected (cameras i m)) ->
   pipe_ok (loop_pc (nth i (sv_loops sv) new_loop)) ->
   forall rounds, Forall (fair i k) rounds ->
     throughout accepts_rows cameras (concat rounds) sv0 ->
     (3 + 5 * length (req_class_names req) +
      length (req_class_names req) * (8 * Z.to_nat (req_num_samples req))
      <= length rounds)%nat ->
     returned k (play cameras (concat rounds) sv0)).
Proof.
  intros Hs Hn Hi k sv0. split.
  - intros acts Hc sv'.
    destruct (@request_view i req sv acts Hs Hn Hi Hc)
      as [Hco [Hcap [Hv [Hret [Hnone [Hsh Hcp]]]]]].
    fold k in Hco, Hcap, Hv, Hret, Hnone, Hsh, Hcp.
    fold sv0 in Hv, Hret, Hnone, Hsh, Hcp. fold sv' in Hv, Hret, Hnone, Hsh, Hcp.
    destruct (@any_class_run _ (cameras i) (view i k sv) req (lowers i k acts)
                Hco Hcap (lowers_no_request i k acts))
      as [suf [rest [D [R Hdone]]]].
    rewrite <- Hv in D, Hdone.
    exists suf, rest. split; [exact D|]. split; [exact R|].
    intros Hr. apply Hret in Hr.
    destruct (Hdone Hr) as [H1 [H2 H3]].
    split; [exact H1|]. split; [exact H2|].
    split; [eapply coherent_idle; eassumption|apply Hnone, Hr].
  - intros Hcam Hok rounds Hf Ha Hl.
    apply request_view_returns with (i := i); auto.
Qed.

(** ** The end of a frame loop *)

Lemma ended_loop_serve a i l sv :
  nth_error (sv_loops sv) i = Some l -> halted (loop_pc l) = true ->
  nth_error (sv_loops (serve cameras a sv)) i = Some l.
Proof.
  intros Hl Hh. destruct a.
  - simpl. rewrite nth_error_app1; [exact Hl|]. apply nth_error_Some. congruence.
  - destruct (Nat.eq_dec i0 i) as [->|Hne].
    + rewrite (@serve_ended_loop i l sv Hl Hh). exact Hl.
    + simpl. destruct (nth_error (sv_loops sv) i0) as [l0|]; [|exact Hl].
      destruct (run_step _ _ _) as [[g' pc'] out]. simpl.
      rewrite nth_error_put_ne by exact Hne. exact Hl.
  - exact Hl.
  - simpl. destruct (nth_error (sv_requests sv) j) as [[pc|]|]; try exact Hl.
    destruct (start_capture_step _ _) as [[g' pc'] out]. exact Hl.
  - simpl. destruct (train_model _ _) as [[g' fs'] r]. exact Hl.
  - simpl. destruct (start_prediction _ _) as [g' r]. exact Hl.
  - exact Hl.
  - simpl. destruct (download_data _ _) as [fs' r]. exact Hl.
  - exact Hl.
Qed.

Lemma ended_loop_play acts i l sv :
  nth_error (sv_loops sv) i = Some l -> halted (loop_pc l) = true ->
  nth_error (sv_loops (play cameras acts sv)) i = Some l.
Proof.
  revert sv. induction acts as [|a acts IH]; simpl; intros sv Hl Hh; [exact Hl|].
  apply IH; [|exact Hh]. apply ended_loop_serve; assumption.
Qed.

Lemma all_ended_serve a sv :
  Forall (fun l => halted (loop_pc l) = true) (sv_loops sv) ->
  a <> AVideoFeed ->
  sv_loops (serve cameras a sv) = sv_loops sv /\
  data (sv_shared (serve cameras a sv)) = data (sv_shared sv).
Proof.
  intros Hall Ha. destruct a; simpl; auto; try congruence.
  - destruct (nth_error (sv_loops sv) i) as [l|] eqn:Hl; [|auto].
    assert (Hh : halted (loop_pc l) = true).
    { rewrite Forall_forall in Hall. apply Hall. eapply nth_error_In, Hl. }
    pose proof (@serve_ended_loop i l sv Hl Hh) as Hsame.
    unfold serve in Hsame. rewrite Hl in Hsame. rewrite Hsame. auto.
  - destruct (nth_error (sv_requests sv) j) as [[pc|]|]; auto.
    destruct pc as [req|[|c r]|r|r|r|r|]; simpl; auto.
    destruct (samples_captured _ <? _); simpl; auto.
  - unfold train_model.
    destruct (csv_file _); simpl; auto.
    destruct (read_csv c) as [[X Y]|]; simpl; auto.
    destruct (train_test_split X Y) as [[[[? ?] ?] ?]|]; simpl; auto.
    destruct (fit f l); simpl; auto.
  - unfold start_prediction.
    destruct (model_file _); try destruct (joblib_load _); simpl; auto.
  - unfold download_data. destruct (to_csv _ _); simpl; auto.
Qed.

Lemma all_ended_play acts sv :
  Forall (fun l => halted (loop_pc l) = true) (sv_loops sv) ->
  Forall (fun a => a <> AVideoFeed) acts ->
  sv_loops (play cameras acts sv) = sv_loops sv /\
  data (sv_shared (play cameras acts sv)) = data (sv_shared sv).
Proof.
  revert sv. induction acts as [|a acts IH]; simpl; intros sv Hall Hf; [auto|].
  inversion Hf as [|? ? Ha Hf']; subst.
  destruct (@all_ended_serve a sv Hall Ha) as [E1 E2].
  destruct (IH (serve cameras a sv)) as [E3 E4]; [rewrite E1; exact Hall|exact Hf'|].
  split; congruence.
Qed.

(** X15.  A frame that cannot be read ends the frame loop that asked for
    it (line 53).  The step that finds [ret] false changes no global and
    yields nothing, and after it, whatever comes, that loop stays ended and
    has yielded what it had.  When no loop is left running, no row is
    appended and no loop moves until a GET [/video_feed] comes; that request
    starts a new loop, at its first read. *)
Theorem camera_loss_ends_the_loop sv i l acts :
  nth_error (sv_loops sv) i = Some l -> loop_pc l = PRead ->
  cameras i (loop_frames l) = None ->
  let sv1 := serve cameras (ALoop i) sv in
  sv_shared sv1 = sv_shared sv /\
  nth_error (sv_loops (play cameras acts sv1)) i =
    Some {| loop_pc := PStopped; loop_frames := S (loop_frames l);
            loop_emitted := loop_emitted l |} /\
  (Forall (fun l' => halted (loop_pc l') = true) (sv_loops sv1) ->
   Forall (fun a => a <> AVideoFeed) acts ->
   sv_loops (play cameras acts sv1) = sv_loops sv1 /\
   data (sv_shared (play cameras acts sv1)) = data (sv_shared sv)) /\
  sv_loops (serve cameras AVideoFeed (play cameras acts sv1)) =
    sv_loops (play cameras acts sv1) ++ [new_loop].
Proof.
  intros Hl Hpc Hcam sv1.
  assert (H1 : sv_shared sv1 = sv_shared sv /\
               nth_error (sv_loops sv1) i =
                 Some {| loop_pc := PStopped; loop_frames := S (loop_frames l);
                         loop_emitted := loop_emitted l |}).
  { unfold sv1, serve. rewrite Hl, Hpc, Hcam. simpl.
    split; [reflexivity|]. apply nth_error_put_eq.
    apply nth_error_Some. congruence. }
  destruct H1 as [Hsh Hl1].
  split; [exact Hsh|].
  split; [apply ended_loop_play; [exact Hl1|reflexivity]|].
  split; [|reflexivity].
  intros Hall Hf. rewrite <- Hsh. apply all_ended_play; assumption.
Qed.

(** X16.  A prediction that raises ends the frame loop that made it (lines
    81-82 are not guarded).  When [is_predicting] is on and the landmarks do
    not fill the columns, or the active model does not take them, the step
    of line 79-84 changes no global and yields nothing: the frame of this
    iteration is never yielded, and a row appended for it at line 72 stays.
    After it, whatever comes, that loop stays ended. *)
Theorem failed_prediction_ends_the_loop sv i l lm ov m acts :
  nth_error (sv_loops sv) i = Some l -> loop_pc l = PPredict lm ov ->
  is_predicting (sv_shared sv) = true -> trained_model (sv_shared sv) = Some m ->
  length lm <> length feature_columns \/ predict m lm = None ->
  let sv1 := serve cameras (ALoop i) sv in
  sv_shared sv1 = sv_shared sv /\
  nth_error (sv_loops (play cameras acts sv1)) i =
    Some {| loop_pc := PCrashed; loop_frames := loop_frames l;
            loop_emitted := loop_emitted l |}.
Proof.
  intros Hl Hpc Hp Hm Hbad sv1.
  assert (H1 : sv_shared sv1 = sv_shared sv /\
               nth_error (sv_loops sv1) i =
                 Some {| loop_pc := PCrashed; loop_frames := loop_frames l;
                         loop_emitted := loop_emitted l |}).
  { assert (Hi : (i < length (sv_loops sv))%nat)
      by (apply nth_error_Some; congruence).
    unfold sv1, serve. rewrite Hl, Hpc. simpl. rewrite Hp, Hm.
    destruct (Nat.eqb_spec (length lm) (length feature_columns)) as [He|He].
    - destruct Hbad as [Hbad|Hbad]; [contradiction|]. rewrite Hbad. simpl.
      split; [reflexivity|]. apply nth_error_put_eq, Hi.
    - simpl. split; [reflexivity|]. apply nth_error_put_eq, Hi. }
  destruct H1 as [Hsh Hl1].
  split; [exact Hsh|].
  apply ended_loop_play; [exact Hl1|reflexivity].
Qed.

(** ** Prediction in the process *)

(** While the process predicts, the model file is there. *)
Lemma attainable_predicting sv :
  attainable cameras sv ->
  is_predicting (sv_shared sv) = true -> model_file (sv_disk sv) <> None.
Proof.
  induction 1 as [fs0|a sv Hr IH]; [discriminate|].
  destruct a; simpl; auto.
  - destruct (nth_error (sv_loops sv) i) as [l|]; [|exact IH].
    pose proof (run_step_predicting (cameras i (loop_frames l)) (sv_shared sv)
                  (loop_pc l)) as H.
    destruct (run_step _ _ _) as [[g' pc'] out]. simpl in *.
    rewrite H. exact IH.
  - destruct (nth_error (sv_requests sv) j) as [[pc|]|]; try exact IH.
    destruct pc as [req|[|c r]|r|r|r|r|]; simpl; auto.
    destruct (samples_captured _ <? _); simpl; auto.
  - unfold train_model.
    destruct (csv_file _); simpl; auto.
    destruct (read_csv c) as [[X Y]|]; simpl; auto.
    destruct (train_test_split X Y) as [[[[? ?] ?] ?]|]; simpl; auto.
    destruct (fit f l); simpl; auto. intros _. discriminate.
  - unfold start_prediction.
    destruct (model_file (sv_disk sv)) eqn:Hm; simpl; [|rewrite Hm; auto].
    destruct (joblib_load b); simpl; rewrite Hm; intros _; discriminate.
  - discriminate.
  - unfold download_data. destruct (to_csv _ _); simpl; auto.
Qed.

(** C5 (as the code has it).  In every state the process can reach,
    [start_prediction] replies "Train the model please." with [success]
    false exactly when the file [modele_decision_tree.h5] does not exist;
    then no global changes and [is_predicting] is and stays off.  When the
    file exists and [joblib.load] reads it, what it has read becomes
    [trained_model], [is_predicting] is set, nothing else changes and the
    reply is the one of success.  When the file exists and [joblib.load]
    raises, the handler raises: no reply of its own is given and no global
    changes. *)
Theorem start_prediction_needs_file sv :
  attainable cameras sv ->
  (model_file (sv_disk sv) = None ->
     start_prediction (sv_shared sv) (sv_disk sv) = (sv_shared sv, Json train_first) /\
     is_predicting (sv_shared sv) = false) /\
  (forall b m, model_file (sv_disk sv) = Some b -> joblib_load b = Some m ->
     start_prediction (sv_shared sv) (sv_disk sv) =
       (set_is_predicting true (set_trained_model (Some m) (sv_shared sv)),
        Json prediction_started)) /\
  (forall b, model_file (sv_disk sv) = Some b -> joblib_load b = None ->
     start_prediction (sv_shared sv) (sv_disk sv) = (sv_shared sv, Unhandled)) /\
  (snd (start_prediction (sv_shared sv) (sv_disk sv)) = Json train_first <->
   model_file (sv_disk sv) = None).
Proof.
  intros Hr. pose proof (attainable_predicting Hr) as Hp.
  unfold start_prediction.
  destruct (model_file (sv_disk sv)) as [b|] eqn:Hm.
  - split; [discriminate|].
    split; [intros b' m Hb Hl; inversion Hb; subst b'; rewrite Hl; reflexivity|].
    split; [intros b' Hb Hl; inversion Hb; subst b'; rewrite Hl; reflexivity|].
    destruct (joblib_load b); simpl; split; discriminate.
  - repeat split; try discriminate.
    destruct (is_predicting (sv_shared sv)); [|reflexivity].
    exfalso. apply Hp; reflexivity.
Qed.

(** ** Export and reload *)




(** ** The dataset in the process *)

Lemma serve_data a sv :
  data (sv_shared (serve cameras a sv)) =
  data (sv_shared sv) ++
  match a with
  | ALoop i =>
      match nth_error (sv_loops sv) i with
      | Some {| loop_pc := PAppend lm _ |} => [(current_class (sv_shared sv), lm)]
      | _ => []
      end
  | _ => []
  end.
Proof.
  destruct a; simpl; try (rewrite app_nil_r; reflexivity).
  - destruct (nth_error (sv_loops sv) i) as [[pc fr em]|]; simpl;
      [|rewrite app_nil_r; reflexivity].
    pose proof (run_step_data (cameras i fr) (sv_shared sv) pc) as H.
    destruct (run_step (cameras i fr) (sv_shared sv) pc) as [[g' pc'] out].
    simpl in *. rewrite H. destruct pc; reflexivity.
  - destruct (nth_error (sv_requests sv) j) as [[pc|]|]; simpl;
      try (rewrite app_nil_r; reflexivity).
    destruct pc as [req|[|c r]|r|r|r|r|]; simpl; try (rewrite app_nil_r; reflexivity).
    destruct (samples_captured _ <? _); simpl; rewrite app_nil_r; reflexivity.
  - unfold train_model.
    destruct (csv_file _); simpl; [|rewrite app_nil_r; auto].
    destruct (read_csv c) as [[X Y]|]; simpl; [|rewrite app_nil_r; auto].
    destruct (train_test_split X Y) as [[[[? ?] ?] ?]|]; simpl; [|rewrite app_nil_r; auto].
    destruct (fit f l); simpl; rewrite app_nil_r; auto.
  - unfold start_prediction.
    destruct (model_file _); try destruct (joblib_load _); simpl;
      rewrite app_nil_r; auto.
  - unfold download_data. destruct (to_csv _ _); simpl; rewrite app_nil_r; auto.
Qed.

(** X17.  In the process with any number of frame loops and of requests,
    [data] only grows.  A step of any thread leaves the rows already there
    as they are and in their order; the only step that adds one is line 72
    of a frame loop, which appends the landmarks that loop holds under the
    class that is current at that moment.  Over any run the former [data]
    is a prefix of the later one. *)
Theorem process_appends_only :
  (forall a sv,
     data (sv_shared (serve cameras a sv)) =
     data (sv_shared sv) ++
     match a with
     | ALoop i =>
         match nth_error (sv_loops sv) i with
         | Some {| loop_pc := PAppend lm _ |} => [(current_class (sv_shared sv), lm)]
         | _ => []
         end
     | _ => []
     end) /\
  (forall acts sv, exists suf,
     data (sv_shared (play cameras acts sv)) = data (sv_shared sv) ++ suf).
Proof.
  split; [exact serve_data|].
  induction acts as [|a acts IH]; simpl; intros sv.
  - exists []. rewrite app_nil_r. reflexivity.
  - destruct (IH (serve cameras a sv)) as [suf Hs].
    rewrite serve_data, <- app_assoc in Hs. eexists. exact Hs.
Qed.

End Process.

(** * The claims on concrete runs *)

Lemma flat_face_length v : length (flat_face v) = 468%nat.
Proof. apply repeat_length. Qed.

Lemma one_face_receivable : receivable [flat_face 1].
Proof.
  split; [simpl; lia|]. constructor; [apply flat_face_length|constructor].
Qed.

Lemma one_face_detected : [flat_face 1] <> [].
Proof. discriminate. Qed.

Lemma not_predicting_accepts (g : @globals toy) lm :
  is_predicting g = false -> accepts g lm.
Proof. intros H H'. congruence. Qed.

Lemma steady_cameras_detected i m : detected (steady_cameras i m).
Proof. exists (flat_face 1). split; [reflexivity|apply flat_face_length]. Qed.

Lemma one_viewer_sole : sole_loop 0 one_viewer.
Proof.
  split; [simpl; lia|].
  intros [|[|j]] l Hj H; [congruence|discriminate H|discriminate H].
Qed.

Lemma one_viewer_quiet : no_request_served one_viewer.
Proof. constructor. Qed.

Lemma one_viewer_idle : idle 0 one_viewer.
Proof. unfold idle. simpl. split; [reflexivity|]. split; [lia|reflexivity]. Qed.

Lemma turns_fair k : Forall (fair 0 0) (turns k).
Proof.
  apply Forall_forall. intros r Hr. apply repeat_spec in Hr. subst r.
  split; [simpl; auto|]. split; [simpl; auto|].
  constructor; [reflexivity|]. constructor; [reflexivity|constructor].
Qed.

Lemma turns_calm k : Forall (fun a => calm a = true) (concat (turns k)).
Proof.
  induction k as [|k IH]; simpl; [constructor|].
  constructor; [reflexivity|]. constructor; [reflexivity|exact IH].
Qed.

Lemma turns_without_prediction k :
  Forall (fun a => a <> AStartPrediction) (concat (turns k)).
Proof.
  induction k as [|k IH]; simpl; [constructor|].
  constructor; [discriminate|]. constructor; [discriminate|exact IH].
Qed.

(** C1, the face of the steady camera: 1404 values. *)
Lemma landmarks_of_detected_face_witness :
  exists f : @face toy,
    hd_error [flat_face 1] = Some f /\
    length (face_values f) = (468 * 3)%nat /\
    length (face_values f) = length (@feature_columns).
Proof.
  destruct (@landmarks_of_detected_face toy initial_globals [flat_face 1]
              one_face_receivable one_face_detected)
    as [f [H1 [_ [_ [H2 H3]]]]].
  exists f. repeat split; assumption.
Defined.


Lemma steady_camera_good : forall i, good_frame (steady_camera i).
Proof.
  intros i. exists [flat_face 1].
  split; [reflexivity|]. split; [discriminate|].
  vm_compute. reflexivity.
Qed.







(** C3, two consumers of [/video_feed] and a request for one sample of
    "happy": both frame loops pass the test of line 71 while the count is
    0, both append their row, and the request returns with success after two
    rows. *)
Lemma two_loops_capture_too_many :
  data (sv_shared two_viewers) = [] /\
  req_num_samples once_request = 1 /\
  sv_requests overshoot = [None] /\
  sv_replies overshoot = [Json capture_completed] /\
  map fst (data (sv_shared overshoot)) = ["happy"; "happy"] /\
  samples_captured (sv_shared overshoot) = 2.
Proof. vm_compute. repeat split; reflexivity. Qed.

(** C3, one consumer of [/video_feed] and a request for two samples of
    "happy", before the steady camera: after 24 rounds the request has
    returned, and the rows are two, labelled "happy". *)
Lemma capture_exactly_n_witness :
  returned 0 (play steady_cameras (concat (turns 24))
                (serve steady_cameras (AStartCapture happy_request) one_viewer)) /\
  exists suf,
    data (sv_shared (play steady_cameras (concat (turns 24))
                       (serve steady_cameras (AStartCapture happy_request) one_viewer)))
      = suf /\
    Forall (fun r => fst r = "happy") suf /\ length suf = 2%nat.
Proof.
  destruct (@capture_exactly_n toy steady_cameras one_viewer 0%nat "happy" 2
              one_viewer_sole one_viewer_quiet one_viewer_idle eq_refl)
    as [Safe Live].
  assert (Hret : returned 0
            (play steady_cameras (concat (turns 24))
               (serve steady_cameras (AStartCapture happy_request) one_viewer))).
  { apply Live.
    - intros m. apply steady_cameras_detected.
    - exact I.
    - apply turns_fair.
    - apply throughout_not_predicting;
        [reflexivity|apply turns_without_prediction].
    - unfold turns. rewrite repeat_length. simpl. lia. }
  split; [exact Hret|].
  destruct (Safe (concat (turns 24)) (turns_calm 24))
    as [suf [D [F [_ [Hdone _]]]]].
  exists suf. split; [exact D|]. split; [exact F|].
  destruct (Hdone Hret) as [Hl _]. exact Hl.
Defined.

(** C6, two consumers of [/video_feed] and a request for one sample of "a"
    then one of "b": both frame loops pass the test of line 71 for "a", and
    the request returns with success after two rows labelled "a" and one
    labelled "b". *)
Lemma two_loops_capture_out_of_count :
  data (sv_shared two_viewers) = [] /\
  req_num_samples ab_once_request = 1 /\
  req_class_names ab_once_request = ["a"; "b"] /\
  sv_requests overshoot_ab = [None] /\
  sv_replies overshoot_ab = [Json capture_completed] /\
  map fst (data (sv_shared overshoot_ab)) = ["a"; "a"; "b"].
Proof. vm_compute. repeat split; reflexivity. Qed.

(** C6, one consumer of [/video_feed] and a request for ten samples of "a"
    then "b", before the steady camera: after 173 rounds the request has
    returned, and the labels of the rows are ten times "a", then ten times
    "b". *)
Lemma capture_in_order_witness :
  returned 0 (play steady_cameras (concat (turns 173))
                (serve steady_cameras (AStartCapture ab_request) one_viewer)) /\
  map fst (data (sv_shared (play steady_cameras (concat (turns 173))
                              (serve steady_cameras (AStartCapture ab_request) one_viewer))))
    = repeat "a" 10 ++ repeat "b" 10.
Proof.
  destruct (@capture_in_order toy steady_cameras one_viewer 0%nat "a" "b" 10
              one_viewer_sole one_viewer_quiet one_viewer_idle)
    as [Safe Live].
  assert (Hret : returned 0
            (play steady_cameras (concat (turns 173))
               (serve steady_cameras (AStartCapture ab_request) one_viewer))).
  { apply Live.
    - intros m. apply steady_cameras_detected.
    - exact I.
    - apply turns_fair.
    - apply throughout_not_predicting;
        [reflexivity|apply turns_without_prediction].
    - unfold turns. rewrite repeat_length. simpl. lia. }
  split; [exact Hret|].
  destruct (Safe (concat (turns 173)) (turns_calm 173))
    as [suf [rest [D [_ [_ [_ [_ Hdone]]]]]]].
  destruct (Hdone Hret) as [Hl _].
  unfold ab_request. rewrite D. exact Hl.
Defined.

(** C4, an empty [data]: with the file of an earlier run [train_model]
    trains and writes the model; with the file exported from the empty
    [data] it raises instead of replying. *)
Lemma train_model_ignores_data :
  data (@initial_globals toy) = [] /\
  train_model initial_globals old_files =
    (set_trained_model (Some (("a", 1%nat) : @model toy)) initial_globals,
     trained_files, Json (model_trained ((0%nat, 1%nat) : @score toy))) /\
  success (model_trained ((0%nat, 1%nat) : @score toy)) = true /\
  download_data initial_globals no_files =
    (header_only, SentCsv ([] : @csv toy)) /\
  train_model initial_globals header_only =
    (initial_globals, header_only, Unhandled).
Proof. vm_compute. repeat split; reflexivity. Qed.

(** C5, a model file that is not a dump: the file exists, yet
    [start_prediction] raises, and [is_predicting] stays off. *)
Lemma start_prediction_invalid_file :
  model_file garbage_files = Some (None : @blob toy) /\
  start_prediction initial_globals garbage_files = (initial_globals, Unhandled) /\
  is_predicting (fst (start_prediction initial_globals garbage_files)) = false.
Proof. vm_compute. repeat split; reflexivity. Qed.

(** C5, no model file, and the model file of a training. *)
Lemma start_prediction_needs_file_witness :
  (start_prediction initial_globals no_files = (initial_globals, Json train_first) /\
   is_predicting (@initial_globals toy) = false) /\
  start_prediction initial_globals trained_files =
    (set_is_predicting true
       (set_trained_model (Some (("a", 1%nat) : @model toy)) initial_globals),
     Json prediction_started).
Proof.
  split.
  - destruct (@start_prediction_needs_file toy steady_cameras
                (initial_server no_files)
                (attain_initial steady_cameras no_files)) as [Hnone _].
    apply Hnone. reflexivity.
  - destruct (@start_prediction_needs_file toy steady_cameras
                (initial_server trained_files)
                (attain_initial steady_cameras trained_files)) as [_ [Hsome _]].
    exact (Hsome (Some ("a", 1%nat)) ("a", 1%nat) eq_refl eq_refl).
Defined.






Lemma frame_without_face_witness :
  exec empty_camera [EvPipeline; EvPipeline] fresh =
    {| shared := shared fresh; disk := disk fresh; ppc := PRead;
       frame_no := 1; emitted := [plain_frame];
       capture := None; replies := [] |}.
Proof.
  destruct (@frame_without_face toy empty_camera fresh eq_refl eq_refl)
    as [_ [_ [_ [_ [_ [_ [_ H]]]]]]].
  exact H.
Defined.

(** * The further properties on concrete runs *)

Lemma reachable_after_happy : reachable steady_camera after_happy.
Proof.
  unfold after_happy. apply reachable_exec. constructor. constructor.
Qed.

Lemma rows_come_from_frames_witness :
  Forall (fun r => from_camera steady_camera (frame_no after_happy) (snd r))
         (data (shared after_happy)).
Proof.
  destruct (@rows_come_from_frames toy steady_camera after_happy
              reachable_after_happy) as [H _].
  exact H.
Defined.

Lemma rows_fill_columns_witness :
  Forall (fun r => length (snd r) = 1404%nat /\ S (length (snd r)) = length columns)
         (data (shared after_happy)).
Proof.
  exact (@rows_fill_columns toy steady_camera after_happy
           steady_camera_good reachable_after_happy).
Defined.



Lemma frame_captured_witness :
  samples_captured (shared (exec steady_camera (repeat EvPipeline 8) polling_happy)) = 1 /\
  map fst (data (shared (exec steady_camera (repeat EvPipeline 8) polling_happy)))
    = ["happy"].
Proof.
  rewrite (@frame_captured toy steady_camera polling_happy (flat_face 1)
             eq_refl eq_refl (flat_face_length 1)
             (@not_predicting_accepts (shared polling_happy) _ eq_refl)
             eq_refl eq_refl).
  split; reflexivity.
Defined.

Lemma frame_not_captured_witness :
  emitted (exec steady_camera (repeat EvPipeline 4) fresh) =
    [{| mesh_drawn := 1; capture_text := None; prediction_text := None |}] /\
  shared (exec steady_camera (repeat EvPipeline 4) fresh) = shared fresh.
Proof.
  rewrite (@frame_not_captured toy steady_camera fresh (flat_face 1)
             eq_refl eq_refl (flat_face_length 1)
             (@not_predicting_accepts (shared fresh) _ eq_refl) eq_refl).
  split; reflexivity.
Defined.

Lemma model_file_is_kept_witness :
  exists b',
    model_file (disk (exec steady_camera
                        [EvStartCapture negative_request; EvCapture;
                         EvDownloadData; EvTrainModel; EvPipeline]
                        (initial_app trained_files))) = Some b'.
Proof.
  destruct (@model_file_is_kept toy steady_camera (initial_app trained_files)
              (Some ("a", 1%nat) : @blob toy)
              [EvStartCapture negative_request; EvCapture;
               EvDownloadData; EvTrainModel; EvPipeline] eq_refl)
    as [b' [H _]].
  exists b'. exact H.
Defined.

Lemma dataset_file_is_kept_witness :
  exists c',
    csv_file (disk (exec steady_camera
                      [EvTrainModel; EvStartPrediction; EvDownloadData; EvStopPrediction]
                      (initial_app old_files))) = Some c'.
Proof.
  destruct (@dataset_file_is_kept toy steady_camera (initial_app old_files)
              ([("a", [1]); ("b", [2])] : @csv toy)
              [EvTrainModel; EvStartPrediction; EvDownloadData; EvStopPrediction]
              eq_refl)
    as [c' [H _]].
  exists c'. exact H.
Defined.

Lemma train_then_predict_witness :
  exists m : @model toy,
    download_model trained_files = SentModel (joblib_dump m) /\
    snd (start_prediction (set_trained_model (Some m) initial_globals) trained_files)
      = Json prediction_started.
Proof.
  destruct (@train_then_predict toy initial_globals
              (set_trained_model (Some (("a", 1%nat) : @model toy)) initial_globals)
              old_files trained_files ((0%nat, 1%nat) : @score toy) eq_refl)
    as [m [m' [Hg [Hf [Hd [Hl Hp]]]]]].
  exists m. split; [exact Hd|].
  rewrite <- Hg, Hp. reflexivity.
Defined.

Lemma one_frame_per_read_witness :
  frame_no after_happy =
  (length (emitted after_happy) + in_flight (ppc after_happy))%nat.
Proof.
  exact (@one_frame_per_read toy steady_camera after_happy reachable_after_happy).
Defined.

Lemma capturing_complete_after_happy :
  capturing_complete (shared after_happy) = true.
Proof. vm_compute. reflexivity. Qed.

Lemma capturing_complete_is_never_reset_witness :
  capturing_complete
    (shared (exec steady_camera
               [EvStartCapture ab_request; EvCapture; EvCapture; EvCapture; EvCapture]
               after_happy)) = true.
Proof.
  exact (@capturing_complete_is_never_reset toy steady_camera after_happy
           [EvStartCapture ab_request; EvCapture; EvCapture; EvCapture; EvCapture]
           capturing_complete_after_happy).
Defined.

Lemma capture_all_classes_witness :
  returned 0 (play steady_cameras (concat (turns 42))
                (serve steady_cameras (AStartCapture abc_request) one_viewer)) /\
  exists suf,
    data (sv_shared (play steady_cameras (concat (turns 42))
                       (serve steady_cameras (AStartCapture abc_request) one_viewer)))
      = suf /\
    map fst suf = ["a"; "b"; "c"].
Proof.
  destruct (@capture_all_classes toy steady_cameras one_viewer 0%nat abc_request
              one_viewer_sole one_viewer_quiet one_viewer_idle)
    as [Safe Live].
  assert (Hret : returned 0
            (play steady_cameras (concat (turns 42))
               (serve steady_cameras (AStartCapture abc_request) one_viewer))).
  { apply Live.
    - intros m. apply steady_cameras_detected.
    - exact I.
    - apply turns_fair.
    - apply throughout_not_predicting;
        [reflexivity|apply turns_without_prediction].
    - unfold turns. rewrite repeat_length. simpl. lia. }
  split; [exact Hret|].
  destruct (Safe (concat (turns 42)) (turns_calm 42)) as [suf [rest [D [R Hdone]]]].
  destruct (Hdone Hret) as [Hrest _]. subst rest. rewrite app_nil_r in R.
  exists suf. split; [exact D|exact R].
Defined.

Lemma camera_loss_ends_the_loop_witness :
  nth_error
    (sv_loops (play dead_cameras [ALoop 0; ARequest 0; AVideoFeed; ALoop 1]
                 (serve dead_cameras (ALoop 0) one_viewer))) 0 =
    Some {| loop_pc := PStopped; loop_frames := 1; loop_emitted := [] |}.
Proof.
  destruct (@camera_loss_ends_the_loop toy dead_cameras one_viewer 0%nat new_loop
              [ALoop 0; ARequest 0; AVideoFeed; ALoop 1] eq_refl eq_refl eq_refl)
    as [_ [H _]].
  exact H.
Defined.

Lemma stale_model_rejects :
  predict (("a", 1%nat) : @model toy) (extract_landmarks [flat_face 1]) = None.
Proof. vm_compute. reflexivity. Qed.

Lemma stale_model_loop :
  nth_error (sv_loops stale_model) 0 =
    Some {| loop_pc := PPredict (extract_landmarks [flat_face 1])
                         {| mesh_drawn := 1; capture_text := None;
                            prediction_text := None |};
            loop_frames := 1; loop_emitted := [] |}.
Proof. vm_compute. reflexivity. Qed.

Lemma failed_prediction_ends_the_loop_witness :
  nth_error
    (sv_loops (play steady_cameras [ALoop 0; ALoop 0]
                 (serve steady_cameras (ALoop 0) stale_model))) 0 =
    Some {| loop_pc := PCrashed; loop_frames := 1; loop_emitted := [] |}.
Proof.
  destruct (@failed_prediction_ends_the_loop toy steady_cameras stale_model 0%nat
              _ _ _ (("a", 1%nat) : @model toy) [ALoop 0; ALoop 0]
              stale_model_loop eq_refl eq_refl eq_refl
              (or_intror stale_model_rejects))
    as [_ H].
  exact H.
Defined.
